(** * zfinder: a shallow embedding of the redshift search engine

    The development follows [zfinder.py]: the helper [average_zeroes], the
    static methods [spaced_circle_points] and [gaussf] of [RedshiftFinder], and
    the grid search and colour assignment of [RedshiftFinder.zfind].

    Modelling conventions.
    - A Python/NumPy float is a real number of [R]: rounding, overflow, [nan]
      and [inf] are outside the model, so a statement below speaks of the code
      on runs where no division by zero and no overflow occurs.
    - Python integers ([int], channel indices, counts) are [Z] or [nat].
    - An exception is a value of [exn] carried by [outcome]; a function that
      mutates its argument in place also reports the state of that argument.
    - Calls into SciPy, NumPy's [argsort], photutils and sslf are oracles,
      bound as [Variable]s of a [Section].
    - [random()] is a stream of reals read through an explicit position.
    - The [while True] loop of the sampler runs on fuel; [OutOfFuel] means the
      fuel ran out, i.e. the loop was still running. *)

From Stdlib Require Import String Reals Lra Lia ZArith List Bool.
Import ListNotations.
Open Scope R_scope.

(** ** Exceptions and outcomes *)

Inductive exn : Type :=
| IndexError
| ValueError
| NameError.

Inductive outcome (A : Type) : Type :=
| Ok (a : A)
| Raise (e : exn).
Arguments Ok {A} a.
Arguments Raise {A} e.

Definition bind {A B : Type} (m : outcome A) (k : A -> outcome B) : outcome B :=
  match m with
  | Ok a => k a
  | Raise e => Raise e
  end.

Notation "x <- m ;; k" := (bind m (fun x => k))
  (at level 61, m at next level, right associativity).

(** ** Sequences with Python indexing *)

(** [data[k]] for a list or a one-dimensional array of length [L]: indices
    [0 .. L-1] read from the left, [-L .. -1] from the right, anything else
    raises [IndexError]. *)
Definition py_index (data : list R) (k : Z) : outcome R :=
  let L := Z.of_nat (length data) in
  if (0 <=? k)%Z && (k <? L)%Z then Ok (nth (Z.to_nat k) data 0)
  else if (- L <=? k)%Z && (k <? 0)%Z then Ok (nth (Z.to_nat (k + L)) data 0)
  else Raise IndexError.

(** [data[i] = v] for an index [i] already known to be in range. *)
Fixpoint setitem (data : list R) (i : nat) (v : R) : list R :=
  match data, i with
  | [], _ => []
  | _ :: tl, O => v :: tl
  | hd :: tl, S i' => hd :: setitem tl i' v
  end.

(** The position that [data[i-1]] reads in a sequence of length [len]: the
    last one when [i = 0]. *)
Definition left_index (len i : nat) : nat :=
  match i with
  | O => (len - 1)%nat
  | S i' => i'
  end.

(** ** [average_zeroes] *)

(** The function works in place: its result is either the (mutated) argument,
    or an exception together with the state the argument was left in. *)
Inductive inplace : Type :=
| Returned (data : list R)
| Failed (e : exn) (data : list R).

Definition final_store (r : inplace) : list R :=
  match r with
  | Returned d => d
  | Failed _ d => d
  end.

(** The body of [for i, val in enumerate(data)], with [n] iterations left and
    [i] the current index. *)
Fixpoint average_zeroes_loop (n i : nat) (data : list R) : inplace :=
  match n with
  | O => Returned data
  | S n' =>
      let val := nth i data 0 in
      if Req_dec_T val 0 then
        match py_index data (Z.of_nat i - 1) with
        | Raise e => Failed e data
        | Ok l =>
            match py_index data (Z.of_nat i + 1) with
            | Raise e => Failed e data
            | Ok r => average_zeroes_loop n' (S i) (setitem data i ((l + r) / 2))
            end
        end
      else average_zeroes_loop n' (S i) data
  end.

Definition average_zeroes (data : list R) : inplace :=
  average_zeroes_loop (length data) 0 data.

(** ** Python builtins over sequences of floats *)

(** [max(seq)]: the first maximal item; [ValueError] on an empty sequence. *)
Definition py_max (l : list R) : outcome R :=
  match l with
  | [] => Raise ValueError
  | x :: xs => Ok (fold_left (fun m v => if Rgt_dec v m then v else m) xs x)
  end.

(** [min(seq)]: the first minimal item; [ValueError] on an empty sequence. *)
Definition py_min (l : list R) : outcome R :=
  match l with
  | [] => Raise ValueError
  | x :: xs => Ok (fold_left (fun m v => if Rlt_dec v m then v else m) xs x)
  end.

(** [sum(seq)]: starts from 0 and adds from left to right. *)
Definition py_sum (l : list R) : R := fold_left Rplus l 0.

Definition py_sum_int (l : list Z) : Z := fold_left Z.add l 0%Z.

(** [range(lo, hi)]. *)
Definition py_range (lo hi : Z) : list Z :=
  map (fun k => (lo + Z.of_nat k)%Z) (seq 0 (Z.to_nat (hi - lo))).

(** [np.argmin(seq)]: the index of the first minimal item. *)
Fixpoint argmin_from (l : list R) (i : nat) (best : R) (besti : nat) : nat :=
  match l with
  | [] => besti
  | v :: tl =>
      if Rlt_dec v best then argmin_from tl (S i) v i
      else argmin_from tl (S i) best besti
  end.

Definition np_argmin (l : list R) : outcome nat :=
  match l with
  | [] => Raise ValueError
  | x :: xs => Ok (argmin_from xs 1 x 0)
  end.

(** [np.sort] on channel indices (ascending). *)
Fixpoint insert_sorted (v : Z) (l : list Z) : list Z :=
  match l with
  | [] => [v]
  | h :: tl => if (v <=? h)%Z then v :: l else h :: insert_sorted v tl
  end.

Definition np_sort (l : list Z) : list Z := fold_right insert_sorted [] l.

(** [seq[-k:]] for [k > 0]: the last [k] items, the whole sequence when it
    is shorter than [k]. *)
Definition last_k {A : Type} (k : nat) (l : list A) : list A :=
  skipn (length l - k) l.

(** ** [RedshiftFinder.gaussf] *)

(** What [gaussf] hands back: the Python integer [0] when the loop body never
    runs, a NumPy array otherwise. *)
Inductive ndarray : Type :=
| Scalar (v : R)
| Arr (l : list R).

(** [y += t] with NumPy broadcasting of a scalar [y]. *)
Definition nd_add (y : ndarray) (t : list R) : ndarray :=
  match y with
  | Scalar v => Arr (map (Rplus v) t)
  | Arr l => Arr (map (fun p => fst p + snd p) (combine l t))
  end.

(** A scalar read as an array of [len] equal entries. *)
Definition nd_broadcast (y : ndarray) (len : nat) : list R :=
  match y with
  | Scalar v => repeat v len
  | Arr l => l
  end.

(** One lobe, [a * np.exp(-((x-i*x0) / s)**2)], at one abscissa. *)
Definition lobe (a s x0 : R) (i : Z) (x : R) : R :=
  a * exp (- (((x - IZR i * x0) / s) ^ 2)).

Definition gaussf (x : list R) (a s x0 : R) (n : Z) : ndarray :=
  fold_left (fun y i => nd_add y (map (lobe a s x0 i) x)) (py_range 1 n) (Scalar 0).

(** The template as the specification words it: the sum of the lobes of
    harmonic index 1 to [k], at one abscissa. *)
Fixpoint lobe_sum (a s x0 : R) (k : nat) (x : R) : R :=
  match k with
  | O => 0
  | S k' =>
      lobe_sum a s x0 k' x
      + a * exp (- (((x - IZR (Z.of_nat k) * x0) / s) ^ 2))
  end.

(** ** [RedshiftFinder.spaced_circle_points] *)

Definition point : Type := (R * R)%type.

(** One entry of [cdist(.., .., 'euclidean')]. *)
Definition euclidean (p q : point) : R :=
  sqrt ((fst p - fst q) ^ 2 + (snd p - snd q) ^ 2).

(** The result of code that contains an unbounded loop. *)
Inductive run (A : Type) : Type :=
| Done (a : A)
| Crashed (e : exn)
| OutOfFuel.
Arguments Done {A} a.
Arguments Crashed {A} e.
Arguments OutOfFuel {A}.

(** The candidate drawn from the two random numbers at positions [k] and
    [k+1] of the stream. *)
Definition candidate_point (rnd : nat -> R) (k : nat) (circle_radius : R)
    (centre_coords : point) : point :=
  let theta := 2 * PI * rnd k in
  let r := circle_radius * rnd (S k) in
  (r * cos theta + fst centre_coords, r * sin theta + snd centre_coords).

(** The acceptance test of the [while True] loop. *)
Definition accepted (min_distance minimum_spread_distance : R)
    (points : list point) : bool :=
  (if Rge_dec min_distance minimum_spread_distance then true else false)
  || (length points =? 1)%nat.

(** The [while True] loop that places one point; every iteration reads two
    random numbers and spends one unit of fuel. *)
Fixpoint place_point (fuel : nat) (rnd : nat -> R) (k : nat) (circle_radius : R)
    (centre_coords : point) (minimum_spread_distance : R) (points : list point)
    : run (list point * nat) :=
  match fuel with
  | O => OutOfFuel
  | S fuel' =>
      let c := candidate_point rnd k circle_radius centre_coords in
      match py_min (map (euclidean c) points) with
      | Raise e => Crashed e
      | Ok min_distance =>
          if accepted min_distance minimum_spread_distance points
          then Done (points ++ [c], S (S k))
          else place_point fuel' rnd (S (S k)) circle_radius centre_coords
                 minimum_spread_distance points
      end
  end.

(** The [for _ in range(num_points-1)] loop. *)
Fixpoint place_points (iters fuel : nat) (rnd : nat -> R) (k : nat)
    (circle_radius : R) (centre_coords : point) (minimum_spread_distance : R)
    (points : list point) : run (list point) :=
  match iters with
  | O => Done points
  | S iters' =>
      match place_point fuel rnd k circle_radius centre_coords
              minimum_spread_distance points with
      | Done (points', k') =>
          place_points iters' fuel rnd k' circle_radius centre_coords
            minimum_spread_distance points'
      | Crashed e => Crashed e
      | OutOfFuel => OutOfFuel
      end
  end.

(** [fuel] bounds the redraws spent on each single point. *)
Definition spaced_circle_points (fuel : nat) (rnd : nat -> R) (num_points : Z)
    (circle_radius : R) (centre_coords : point) (minimum_spread_distance : R)
    : run (list point) :=
  place_points (Z.to_nat (num_points - 1)) fuel rnd 0 circle_radius centre_coords
    minimum_spread_distance [centre_coords].

(** What the acceptance test gives a list of placed points: every point from
    the third one on is at least [D] away from all the points placed before
    it. *)
Definition spread (D : R) (pts : list point) : Prop :=
  forall i j : nat,
    (i < j)%nat -> (j < length pts)%nat -> (2 <= j)%nat ->
    D <= euclidean (nth j pts (0, 0)) (nth i pts (0, 0)).

(** ** [RedshiftFinder.zfind] *)

Inductive colour : Type :=
| black
| red
| gold
| green.

(** The [elif] chain that colours a point other than the first one. *)
Definition plot_colour (min_plot_chi2 target_chi2 : R) : colour :=
  if Rle_dec min_plot_chi2 target_chi2 then red
  else if (if Rgt_dec min_plot_chi2 target_chi2 then true else false)
          && (if Rle_dec min_plot_chi2 (1.05 * target_chi2) then true else false)
  then gold
  else green.

(** The test that guards [chi2 *= 1.2]. *)
Definition penalised (peak_distance num_spec_peaks : Z) : bool :=
  (peak_distance >? num_spec_peaks * 3)%Z || (num_spec_peaks <? 2)%Z.

Definition penalise (peak_distance num_spec_peaks : Z) (chi2 : R) : R :=
  if penalised peak_distance num_spec_peaks then chi2 * 1.2 else chi2.

(** [sum(delta_peaks)] after the [zip] loop. *)
Definition peak_distance_of (spec_peaks exp_peak : list Z) : Z :=
  py_sum_int (map (fun p => Z.abs (fst p - snd p)) (combine spec_peaks exp_peak)).

(** [sum(((y_flux - f_exp) / uncert)**2)]; the three sequences have one entry
    per frequency channel. *)
Definition chi2_of (y_flux : list R) (f_exp : ndarray) (uncert : list R) : R :=
  py_sum
    (map (fun p => ((fst (fst p) - snd (fst p)) / snd p) ^ 2)
       (combine (combine y_flux (nd_broadcast f_exp (length y_flux))) uncert)).

(** The two lists filled while the redshift grid is scanned. *)
Record fit_arrays : Type := mk_fit_arrays
  { chi2_array : list R;
    param_array : list (R * R) }.

(** The run-level lists of [self], and the local [target_chi2], which is
    unbound until the first point has been processed. *)
Record finder : Type := mk_finder
  { target_chi2 : option R;
    plot_colours : list colour;
    all_flux : list (list R);
    all_chi2 : list (list R);
    all_params : list (list (R * R));
    all_lowest_z : list R }.

Definition new_finder : finder := mk_finder None [] [] [] [] [].

(** The state of the lists of [self] after [index] points have been
    processed: one colour and one chi-squared sequence per point, the
    reference value is the minimum of the first sequence, and every later
    point is coloured by [plot_colour] from its own minimum. *)
Definition coloured (index : nat) (st : finder) : Prop :=
  length (plot_colours st) = index /\
  length (all_chi2 st) = index /\
  (index <> 0%nat ->
   exists r, target_chi2 st = Some r /\
             py_min (nth 0 (all_chi2 st) []) = Ok r /\ 0 <= r) /\
  (forall i : nat, (0 < i < index)%nat ->
   exists m, py_min (nth i (all_chi2 st) []) = Ok m /\
             forall r, target_chi2 st = Some r ->
                       nth i (plot_colours st) black = plot_colour m r).

Section Zfind.

(** [scipy.optimize.curve_fit(f, xdata, ydata, bounds=..)]: the fitted
    [(a, s)], or [None] when it raises [RuntimeError]. *)
Variable curve_fit :
  (list R -> R -> R -> ndarray) -> list R -> list R -> (R * R) * (R * R) -> option (R * R).
(** [np.argsort]. *)
Variable argsort : ndarray -> list Z.
(** [self.fits_flux(position)]: fluxes and uncertainties per channel. *)
Variable fits_flux : point -> list R * list R.
(** [Spectrum(y).find_cwt_peaks(..)] followed by [.channel_peaks]. *)
Variable channel_peaks : list R -> list Z.

Variable ftransition : R.
Variable x_axis_flux : list R.
Variable num_gaussians : Z.
(** [self.z], the redshift grid. *)
Variable z : list R.

(** The expected peak channels for a fitted template. *)
Definition exp_peak_of (num_spec_peaks : nat) (f_exp : ndarray) : list Z :=
  if (num_spec_peaks =? 0)%nat then []
  else np_sort (last_k num_spec_peaks (argsort f_exp)).

(** The [curve_fit] call of the [try] block: [max(y_flux)] is evaluated
    first and its [ValueError] is not caught; [Ok None] stands for the
    [RuntimeError] that the [except] clause catches. *)
Definition try_fit (y_flux : list R) (ddz : R) : outcome (option (R * R)) :=
  let loc := ftransition / (1 + ddz) in
  ymax <- py_max y_flux ;;
  Ok (curve_fit (fun x a s => gaussf x a s loc num_gaussians)
        x_axis_flux y_flux ((0, 1 / 8), (ymax, 2 / 3))).

(** The body of [for ddz in self.z]. *)
Definition zfind_candidate (y_flux uncert : list R) (spec_peaks : list Z)
    (st : fit_arrays) (ddz : R) : outcome fit_arrays :=
  let num_spec_peaks := length spec_peaks in
  let loc := ftransition / (1 + ddz) in
  fitted <- try_fit y_flux ddz ;;
  match fitted with
  | None =>
      m <- py_max (chi2_array st) ;;
      Ok (mk_fit_arrays (chi2_array st ++ [m]) (param_array st))
  | Some params =>
      let f_exp := gaussf x_axis_flux (fst params) (snd params) loc num_gaussians in
      let chi2 := chi2_of y_flux f_exp uncert in
      let exp_peak := exp_peak_of num_spec_peaks f_exp in
      let peak_distance := peak_distance_of spec_peaks exp_peak in
      let chi2 := penalise peak_distance (Z.of_nat num_spec_peaks) chi2 in
      Ok (mk_fit_arrays (chi2_array st ++ [chi2]) (param_array st ++ [params]))
  end.

(** The chi-squared before the penalty for a candidate whose fit gave
    [params]. *)
Definition raw_chi2 (y_flux uncert : list R) (ddz : R) (params : R * R) : R :=
  chi2_of y_flux
    (gaussf x_axis_flux (fst params) (snd params) (ftransition / (1 + ddz))
       num_gaussians)
    uncert.

(** The total peak distance for a candidate whose fit gave [params]. *)
Definition total_distance (spec_peaks : list Z) (ddz : R) (params : R * R) : Z :=
  peak_distance_of spec_peaks
    (exp_peak_of (length spec_peaks)
       (gaussf x_axis_flux (fst params) (snd params) (ftransition / (1 + ddz))
          num_gaussians)).

(** The whole [for ddz in ..] loop over a list of candidates. *)
Fixpoint grid_search (y_flux uncert : list R) (spec_peaks : list Z)
    (st : fit_arrays) (zs : list R) : outcome fit_arrays :=
  match zs with
  | [] => Ok st
  | ddz :: zs' =>
      st' <- zfind_candidate y_flux uncert spec_peaks st ddz ;;
      grid_search y_flux uncert spec_peaks st' zs'
  end.

(** The body of [for index, coord in enumerate(self.coordinates)]. The
    signal-to-noise ratios and scales are copied from the line finder
    unchanged and are left out. *)
Definition zfind_point (index : nat) (st : finder) (coord : point) : outcome finder :=
  let (y_flux0, uncert0) := fits_flux coord in
  match average_zeroes uncert0 with
  | Failed e _ => Raise e
  | Returned uncert1 =>
      let y_flux := map (fun v => v * 1000) y_flux0 in
      let uncert := map (fun v => v * 1000) uncert1 in
      let spec_peaks := np_sort (channel_peaks y_flux) in
      arrays <- grid_search y_flux uncert spec_peaks (mk_fit_arrays [] []) z ;;
      min_plot_chi2 <- py_min (chi2_array arrays) ;;
      ct <- (if (index =? 0)%nat then Ok (black, min_plot_chi2)
             else match target_chi2 st with
                  | None => Raise NameError
                  | Some t => Ok (plot_colour min_plot_chi2 t, t)
                  end) ;;
      lowest_index <- np_argmin (chi2_array arrays) ;;
      lowest_redshift <- py_index z (Z.of_nat lowest_index) ;;
      Ok (mk_finder (Some (snd ct))
            (plot_colours st ++ [fst ct])
            (all_flux st ++ [y_flux])
            (all_chi2 st ++ [chi2_array arrays])
            (all_params st ++ [param_array arrays])
            (all_lowest_z st ++ [lowest_redshift]))
  end.

(** The loop over the sampled coordinates, from position [index] on. *)
Fixpoint zfind_points (index : nat) (st : finder) (coordinates : list point)
    : outcome finder :=
  match coordinates with
  | [] => Ok st
  | coord :: rest =>
      st' <- zfind_point index st coord ;;
      zfind_points (S index) st' rest
  end.

(** [zfind] once the centre pixel is known: sample the points, then scan
    them in order. *)
Definition zfind (fuel : nat) (rnd : nat -> R) (num_plots : Z) (circle_radius : R)
    (centre : point) (minimum_point_distance : R) : run finder :=
  match spaced_circle_points fuel rnd num_plots circle_radius centre
          minimum_point_distance with
  | Done coordinates =>
      match zfind_points 0 new_finder coordinates with
      | Ok st => Done st
      | Raise e => Crashed e
      end
  | Crashed e => Crashed e
  | OutOfFuel => OutOfFuel
  end.

End Zfind.

(** ** Stand-ins for the external collaborators

    Deterministic doubles for SciPy's fit and NumPy's [argsort], used to run
    the grid search on concrete inputs. *)

(** The value the model function takes at abscissa 1 for amplitude and width
    1. *)
Definition probe (f : list R -> R -> R -> ndarray) : R :=
  match f [1] 1 1 with
  | Scalar v => v
  | Arr [] => 0
  | Arr (v :: _) => v
  end.

(** A fit that converges to [(1, 1/4)] when the template peaks at abscissa 1
    and raises [RuntimeError] otherwise. *)
Definition fit_on_peak (f : list R -> R -> R -> ndarray) (xdata ydata : list R)
    (bounds : (R * R) * (R * R)) : option (R * R) :=
  if Rlt_dec (probe f) 1 then None else Some (1, 1 / 4).

(** A fit that always converges to [(1, 1/4)]. *)
Definition fit_always (f : list R -> R -> R -> ndarray) (xdata ydata : list R)
    (bounds : (R * R) * (R * R)) : option (R * R) :=
  Some (1, 1 / 4).

(** An [argsort] for one-channel spectra. *)
Definition argsort_one (f : ndarray) : list Z := [0%Z].

(** ** The helpers around the search *)

(** The exceptions of the helpers below. *)
Inductive helper_exn : Type :=
| KeyError
| ZeroDivisionError
| OverflowError.

Inductive checked (A : Type) : Type :=
| Value (a : A)
| Throws (e : helper_exn).
Arguments Value {A} a.
Arguments Throws {A} e.

(** [seq[k]] for a sequence of any items, with the indexing of [py_index]. *)
Definition py_getitem {A : Type} (l : list A) (k : Z) : outcome A :=
  let L := Z.of_nat (length l) in
  let pos := if (k <? 0)%Z then (k + L)%Z else k in
  if (0 <=? pos)%Z && (pos <? L)%Z then
    match nth_error l (Z.to_nat pos) with
    | Some v => Ok v
    | None => Raise IndexError
    end
  else Raise IndexError.

(** *** [flatten_list] *)

Definition flatten_list {A : Type} (input_list : list (list A)) : list A :=
  fold_left
    (fun flattened_list array =>
       fold_left (fun acc x => acc ++ [x]) array flattened_list)
    input_list [].

(** *** [get_eng_exponent] *)

(** The dictionary of exponent and unit prefix pairs. *)
Definition prefix : list (Z * string) :=
  [ (-24, "y"); (-21, "z"); (-18, "a"); (-15, "f"); (-12, "p"); (-9, "n");
    (-6, "mu"); (-3, "m"); (0, ""); (3, "k"); (6, "M"); (9, "G"); (12, "T");
    (15, "P"); (18, "E"); (21, "Z"); (24, "Y") ]%Z%string.

(** [d[k]] on a dictionary: [KeyError] when the key is absent. *)
Fixpoint dict_get (d : list (Z * string)) (k : Z) : checked string :=
  match d with
  | [] => Throws KeyError
  | (k', v) :: rest => if (k =? k')%Z then Value v else dict_get rest k
  end.

(** The loop [for i in range(3)]: [None] stands for falling off the end of
    the function. *)
Fixpoint eng_loop (candidates : list Z) (exponent : Z) : checked (option (Z * string)) :=
  match candidates with
  | [] => Value None
  | i :: rest =>
      if ((exponent - i) mod 3 =? 0)%Z then
        match dict_get prefix (exponent - i) with
        | Value symbol => Value (Some ((exponent - i)%Z, symbol))
        | Throws e => Throws e
        end
      else eng_loop rest exponent
  end.

(** [int(np.floor(np.log10(np.abs(number))))] for a non-zero number. *)
Definition floor_log10 (number : R) : Z :=
  Int_part (ln (Rabs number) / ln 10).

(** For 0 the logarithm is minus infinity, which [int] refuses. *)
Definition get_eng_exponent (number : R) : checked (option (Z * string)) :=
  if Req_dec_T number 0 then Throws OverflowError
  else eng_loop (py_range 0 3) (floor_log10 number).

(** *** [RedshiftFinder.fits_circle_radius] *)

(** A pixel of an image: a float, or nan ([None]). *)
Definition pixel : Type := option R.

Definition isnan (x : pixel) : bool :=
  match x with
  | None => true
  | Some _ => false
  end.

Definition fits_circle_radius (data : list (list pixel)) : outcome Z :=
  row0 <- py_getitem data 0 ;;
  let data_len := Z.of_nat (length row0) in
  target_row <- py_getitem data (data_len / 2 - 1) ;;
  let nan_count := Z.of_nat (length (filter isnan target_row)) in
  let diameter := (data_len - nan_count)%Z in
  Ok (diameter / 2 - 7)%Z.

(** *** The frequency axis of [zfind] *)

(** [np.linspace(start, stop, num)] with the end point included. *)
Definition np_linspace (start stop : R) (num : nat) : list R :=
  match num with
  | O => []
  | S O => [start]
  | S (S _) =>
      map (fun i => start + INR i * ((stop - start) / INR (num - 1))) (seq 0 num)
  end.

(** [self.x_axis_flux], from the header values [CRVAL3] and [CDELT3], the
    exponent found by [get_eng_exponent] and the number of channels. *)
Definition frequency_axis (crval3 cdelt3 : R) (exponent : Z) (freq_len : nat) : list R :=
  let freq_start := crval3 / powerRZ 10 exponent in
  let freq_incr := cdelt3 / powerRZ 10 exponent in
  let freq_end := freq_start + INR freq_len * freq_incr in
  np_linspace freq_start freq_end freq_len.

(** *** [RedshiftPlotter.__init__] *)

Record layout : Type := mk_layout
  { pages : Z;
    cols : Z;
    rows : Z;
    squeeze : bool }.

Definition plotter_init (num_plots plots_per_page : Z) : checked layout :=
  if (plots_per_page =? 0)%Z then Throws ZeroDivisionError
  else
    let pages0 := (num_plots / plots_per_page)%Z in
    let pages1 := if (pages0 =? 0)%Z then 1%Z else pages0 in
    if (num_plots >=? 5)%Z
    then Value (mk_layout pages1 5 (num_plots / (5 * pages1)) true)
    else Value (mk_layout pages1 1 1 false).

(** The number of axes the figures of all pages offer together. *)
Definition capacity (l : layout) : Z := (rows l * cols l * pages l)%Z.

(** *** Readings of a scan *)

(** The parameters the fit gives for a candidate, [(0, 0)] when it gives
    none. *)
Definition fit_params
    (curve_fit : (list R -> R -> R -> ndarray) -> list R -> list R ->
                 (R * R) * (R * R) -> option (R * R))
    (ftransition : R) (x_axis_flux : list R) (num_gaussians : Z)
    (y_flux : list R) (ddz : R) : R * R :=
  match try_fit curve_fit ftransition x_axis_flux num_gaussians y_flux ddz with
  | Ok (Some params) => params
  | _ => (0, 0)
  end.

(** The chi-squared recorded for a candidate whose fit converged. *)
Definition recorded_chi2
    (curve_fit : (list R -> R -> R -> ndarray) -> list R -> list R ->
                 (R * R) * (R * R) -> option (R * R))
    (argsort : ndarray -> list Z)
    (ftransition : R) (x_axis_flux : list R) (num_gaussians : Z)
    (y_flux uncert : list R) (spec_peaks : list Z) (ddz : R) : R :=
  let params := fit_params curve_fit ftransition x_axis_flux num_gaussians y_flux ddz in
  penalise
    (total_distance argsort ftransition x_axis_flux num_gaussians spec_peaks ddz params)
    (Z.of_nat (length spec_peaks))
    (raw_chi2 ftransition x_axis_flux num_gaussians y_flux uncert ddz params).

(** The shape of the lists of [self] after [n] points, for a grid of [zlen]
    candidates. *)
Definition aligned (n zlen : nat) (st : finder) : Prop :=
  length (plot_colours st) = n /\
  length (all_flux st) = n /\
  length (all_chi2 st) = n /\
  length (all_params st) = n /\
  length (all_lowest_z st) = n /\
  Forall (fun chi2s => length chi2s = zlen) (all_chi2 st) /\
  Forall (fun params => (length params <= zlen)%nat) (all_params st) /\
  (n <> 0%nat -> nth 0 (plot_colours st) red = black) /\
  (forall i : nat, (0 < i < n)%nat -> nth i (plot_colours st) black <> black).

(** *** Readings of the sampler *)

(** The draw read at position [k] passes the acceptance test against the
    points placed so far: it is the first draw after the centre, or it is at
    least [D] away from every placed point. *)
Definition passes (rnd : nat -> R) (cr : R) (c : point) (D : R)
    (points : list point) (k : nat) : Prop :=
  length points = 1%nat \/
  forall p, In p points -> D <= euclidean (candidate_point rnd k cr c) p.

(** The stream supplies the [iters] points still to place, from position [k]
    on: for each of them some draw passes, after [w] draws that do not.
    [out] is the list of points this gives and [need] the largest number of
    draws spent on one point. *)
Inductive draws_supply (rnd : nat -> R) (cr : R) (c : point) (D : R)
  : nat -> nat -> list point -> list point -> nat -> Prop :=
| supply_none (k : nat) (points : list point) :
    draws_supply rnd cr c D 0 k points points 0
| supply_next (iters k : nat) (points out : list point) (w need : nat) :
    (forall j, (j < w)%nat -> ~ passes rnd cr c D points (k + 2 * j)) ->
    passes rnd cr c D points (k + 2 * w) ->
    draws_supply rnd cr c D iters (k + 2 * w + 2)
      (points ++ [candidate_point rnd (k + 2 * w) cr c]) out need ->
    draws_supply rnd cr c D (S iters) k points out (Nat.max (S w) need).

(** A point the draws can reach: [r = circle_radius * random()] away from the
    centre, with [random()] in [0, 1). *)
Definition in_reach (cr : R) (c p : point) : Prop :=
  exists t, 0 <= t < 1 /\ euclidean p c = cr * t.

(** A list of points the sampler could return for [num_points]: the centre
    first, then points within reach, each one from the third on at least [D]
    away from the points before it. *)
Definition admissible (num_points : Z) (cr : R) (c : point) (D : R)
    (pts : list point) : Prop :=
  length pts = S (Z.to_nat (num_points - 1)) /\
  nth 0 pts (0, 0) = c /\
  (forall j : nat, (0 < j < length pts)%nat -> in_reach cr c (nth j pts (0, 0))) /\
  spread D pts.

(** Three streams of random numbers used to run the sampler. *)
Definition stream_east_west (k : nat) : R :=
  match k with
  | 0%nat => 0
  | 2%nat => 0
  | _ => 1 / 2
  end.

Definition stream_near_centre (k : nat) : R :=
  match k with
  | 0%nat => 1 / 2
  | _ => 1 / 20
  end.

Definition stream_constant (k : nat) : R := 1 / 2.

(** * Facts *)

(** ** Indexing *)

Lemma setitem_length (data : list R) (i : nat) (v : R) :
  length (setitem data i v) = length data.
Proof.
  revert i; induction data as [|h t IH]; intros [|i]; simpl; auto.
Qed.

Lemma nth_setitem_same (data : list R) (i : nat) (v : R) :
  (i < length data)%nat -> nth i (setitem data i v) 0 = v.
Proof.
  revert i; induction data as [|h t IH]; intros [|i] H; simpl in *; try lia; auto.
  apply IH; lia.
Qed.

Lemma nth_setitem_other (data : list R) (i j : nat) (v : R) :
  i <> j -> nth j (setitem data i v) 0 = nth j data 0.
Proof.
  revert i j; induction data as [|h t IH]; intros [|i] [|j] H; simpl; auto; try lia.
Qed.

Lemma py_index_in_range (data : list R) (i : nat) :
  (i < length data)%nat -> py_index data (Z.of_nat i) = Ok (nth i data 0).
Proof.
  intros H; unfold py_index; cbv zeta.
  destruct (Z.leb_spec 0 (Z.of_nat i)); [|lia].
  destruct (Z.ltb_spec (Z.of_nat i) (Z.of_nat (length data))); [|lia].
  cbn [andb]. now rewrite Nat2Z.id.
Qed.

Lemma py_index_minus_one (data : list R) :
  (1 <= length data)%nat -> py_index data (-1) = Ok (nth (length data - 1) data 0).
Proof.
  intros H; unfold py_index; cbv zeta.
  destruct (Z.leb_spec 0 (-1)); [lia|].
  destruct (Z.leb_spec (- Z.of_nat (length data)) (-1)); [|lia].
  destruct (Z.ltb_spec (-1) 0); [|lia].
  cbn [andb]. do 2 f_equal. lia.
Qed.

Lemma py_index_past_end (data : list R) :
  py_index data (Z.of_nat (length data)) = Raise IndexError.
Proof.
  unfold py_index; cbv zeta.
  destruct (Z.ltb_spec (Z.of_nat (length data)) (Z.of_nat (length data))); [lia|].
  destruct (Z.ltb_spec (Z.of_nat (length data)) 0); [lia|].
  now rewrite !andb_false_r.
Qed.

Lemma py_index_left (data : list R) (i : nat) :
  (i < length data)%nat ->
  py_index data (Z.of_nat i - 1) = Ok (nth (left_index (length data) i) data 0).
Proof.
  intros H; destruct i as [|i]; simpl left_index.
  - apply py_index_minus_one; lia.
  - replace (Z.of_nat (S i) - 1)%Z with (Z.of_nat i) by lia.
    apply py_index_in_range; lia.
Qed.

Lemma py_index_right (data : list R) (i : nat) :
  (S i < length data)%nat ->
  py_index data (Z.of_nat i + 1) = Ok (nth (S i) data 0).
Proof.
  intros H. replace (Z.of_nat i + 1)%Z with (Z.of_nat (S i)) by lia.
  now apply py_index_in_range.
Qed.

Lemma py_index_right_end (data : list R) (i : nat) :
  S i = length data -> py_index data (Z.of_nat i + 1) = Raise IndexError.
Proof.
  intros H. replace (Z.of_nat i + 1)%Z with (Z.of_nat (length data)) by lia.
  apply py_index_past_end.
Qed.

(** ** The loop of [average_zeroes] *)

(** One iteration, unfolded according to the value met and to the position. *)
Lemma az_step_nonzero (n i : nat) (data : list R) :
  nth i data 0 <> 0 ->
  average_zeroes_loop (S n) i data = average_zeroes_loop n (S i) data.
Proof.
  intros H; simpl. destruct (Req_dec_T (nth i data 0) 0); [contradiction|reflexivity].
Qed.

Lemma az_step_zero (n i : nat) (data : list R) :
  nth i data 0 = 0 -> (S i < length data)%nat ->
  average_zeroes_loop (S n) i data =
  average_zeroes_loop n (S i)
    (setitem data i
       ((nth (left_index (length data) i) data 0 + nth (S i) data 0) / 2)).
Proof.
  intros H Hi; simpl. destruct (Req_dec_T (nth i data 0) 0); [|contradiction].
  rewrite py_index_left by lia. now rewrite py_index_right.
Qed.

Lemma az_step_zero_last (n i : nat) (data : list R) :
  nth i data 0 = 0 -> S i = length data ->
  average_zeroes_loop (S n) i data = Failed IndexError data.
Proof.
  intros H Hi; simpl. destruct (Req_dec_T (nth i data 0) 0); [|contradiction].
  rewrite py_index_left by lia. now rewrite py_index_right_end.
Qed.

Lemma az_loop_length (n i : nat) (data : list R) :
  (i + n = length data)%nat ->
  length (final_store (average_zeroes_loop n i data)) = length data.
Proof.
  revert i data; induction n as [|n IH]; intros i data H; [reflexivity|].
  destruct (Req_dec_T (nth i data 0) 0) as [Hz|Hz].
  - destruct (Nat.eq_dec (S i) (length data)) as [Hl|Hl].
    + now rewrite az_step_zero_last.
    + rewrite az_step_zero by (auto; lia).
      rewrite IH; rewrite setitem_length; auto; lia.
  - rewrite az_step_nonzero by auto. apply IH; lia.
Qed.

Lemma az_loop_prefix (n i j : nat) (data : list R) :
  (i + n = length data)%nat -> (j < i)%nat ->
  nth j (final_store (average_zeroes_loop n i data)) 0 = nth j data 0.
Proof.
  revert i data; induction n as [|n IH]; intros i data H Hj; [reflexivity|].
  destruct (Req_dec_T (nth i data 0) 0) as [Hz|Hz].
  - destruct (Nat.eq_dec (S i) (length data)) as [Hl|Hl].
    + now rewrite az_step_zero_last.
    + rewrite az_step_zero by (auto; lia).
      rewrite IH; try (rewrite setitem_length); try lia.
      apply nth_setitem_other; lia.
  - rewrite az_step_nonzero by auto. apply IH; lia.
Qed.

Lemma az_loop_nonzero (n i j : nat) (data : list R) :
  (i + n = length data)%nat -> (i <= j)%nat -> nth j data 0 <> 0 ->
  nth j (final_store (average_zeroes_loop n i data)) 0 = nth j data 0.
Proof.
  revert i data; induction n as [|n IH]; intros i data H Hj Hnz; [reflexivity|].
  destruct (Req_dec_T (nth i data 0) 0) as [Hz|Hz].
  - assert (i <> j) by (intros ->; contradiction).
    destruct (Nat.eq_dec (S i) (length data)) as [Hl|Hl].
    + now rewrite az_step_zero_last.
    + rewrite az_step_zero by (auto; lia).
      rewrite IH; try (rewrite setitem_length); try lia.
      * apply nth_setitem_other; lia.
      * rewrite nth_setitem_other by lia; auto.
  - rewrite az_step_nonzero by auto.
    destruct (Nat.eq_dec i j) as [->|Hne].
    + apply az_loop_prefix; lia.
    + apply IH; auto; lia.
Qed.

Lemma az_loop_zero (n i j : nat) (data : list R) :
  (i + n = length data)%nat -> (i <= j)%nat -> (S j < length data)%nat ->
  nth j data 0 = 0 ->
  let out := final_store (average_zeroes_loop n i data) in
  nth j out 0 =
  (match j with
   | O => nth (length data - 1) data 0
   | S j' => nth j' out 0
   end + nth (S j) data 0) / 2.
Proof.
  revert i data; induction n as [|n IH]; intros i data H Hij Hj Hz; [lia|].
  destruct (Nat.eq_dec i j) as [->|Hne].
  - rewrite az_step_zero by (auto; lia). cbv zeta.
    rewrite az_loop_prefix by (try rewrite setitem_length; lia).
    rewrite nth_setitem_same by lia.
    destruct j as [|j']; [reflexivity|].
    rewrite az_loop_prefix by (try rewrite setitem_length; lia).
    rewrite nth_setitem_other by lia. reflexivity.
  - destruct j as [|j']; [lia|].
    destruct (Req_dec_T (nth i data 0) 0) as [Hiz|Hiz].
    + rewrite az_step_zero by (auto; lia).
      specialize (IH (S i) (setitem data i
        ((nth (left_index (length data) i) data 0 + nth (S i) data 0) / 2))).
      cbv zeta in IH |- *.
      rewrite IH; try rewrite setitem_length; try lia.
      * now rewrite nth_setitem_other by lia.
      * now rewrite nth_setitem_other by lia.
    + rewrite az_step_nonzero by auto. apply IH; auto; lia.
Qed.

Lemma az_loop_returns (n i : nat) (data : list R) :
  (i + n = length data)%nat -> nth (length data - 1) data 0 <> 0 ->
  average_zeroes_loop n i data =
  Returned (final_store (average_zeroes_loop n i data)).
Proof.
  revert i data; induction n as [|n IH]; intros i data H Hl; [reflexivity|].
  destruct (Req_dec_T (nth i data 0) 0) as [Hz|Hz].
  - assert (S i <> length data).
    { intros E. apply Hl. now replace (length data - 1)%nat with i by lia. }
    rewrite az_step_zero by (auto; lia).
    apply IH; rewrite setitem_length; try lia.
    rewrite nth_setitem_other by lia; auto.
  - rewrite az_step_nonzero by auto. apply IH; auto; lia.
Qed.

Lemma az_loop_fails (n i : nat) (data : list R) :
  (i + S n = length data)%nat -> nth (length data - 1) data 0 = 0 ->
  exists d, average_zeroes_loop (S n) i data = Failed IndexError d.
Proof.
  revert i data; induction n as [|n IH]; intros i data H Hl.
  - exists data. apply az_step_zero_last; [|lia].
    now replace i with (length data - 1)%nat by lia.
  - destruct (Req_dec_T (nth i data 0) 0) as [Hz|Hz].
    + rewrite az_step_zero by (auto; lia).
      apply IH; rewrite setitem_length; try lia.
      rewrite nth_setitem_other by lia; auto.
    + rewrite az_step_nonzero by auto. apply IH; auto; lia.
Qed.

(** ** [average_zeroes]: what the caller observes *)

Ltac az_run :=
  unfold average_zeroes; cbn [length];
  repeat first
    [ rewrite az_step_nonzero by (cbn [nth setitem]; lra)
    | rewrite az_step_zero by (cbn [nth setitem length]; first [lra | lia])
    | rewrite az_step_zero_last by (cbn [nth setitem length]; first [lra | lia]) ];
  cbn [average_zeroes_loop setitem nth length left_index Nat.sub].

(** C7, as the claim words it, fails on two adjacent zeroes: the second one
    is filled from the value just written to its left, so it is not the mean
    of its two neighbours in the input, and the first one is not the mean of
    its two neighbours in the result. *)
Lemma average_zeroes_adjacent_zeroes :
  average_zeroes [2; 0; 0; 4] = Returned [2; 1; 5 / 2; 4] /\
  nth 2 [2; 0; 0; 4] 0 = 0 /\
  nth 2 (final_store (average_zeroes [2; 0; 0; 4])) 0
    <> (nth 1 [2; 0; 0; 4] 0 + nth 3 [2; 0; 0; 4] 0) / 2 /\
  nth 1 (final_store (average_zeroes [2; 0; 0; 4])) 0
    <> (nth 0 (final_store (average_zeroes [2; 0; 0; 4])) 0
        + nth 2 (final_store (average_zeroes [2; 0; 0; 4])) 0) / 2.
Proof.
  assert (E : average_zeroes [2; 0; 0; 4] = Returned [2; 1; 5 / 2; 4]).
  { az_run. repeat f_equal; lra. }
  rewrite E. cbn [final_store nth]. repeat split; lra.
Qed.

(** C7 (amended): a zero entry at an interior index is replaced by the mean
    of its two neighbours as they stand when it is visited: the left one holds
    the value the call leaves there, the right one its input value; this is
    the mean of the two input neighbours when the left one is not zero.
    Entries that are
    not zero are left unchanged, the call returns when the last entry is not
    zero, and [2, 0, 4] gives [2, 3, 4]. *)
Theorem average_zeroes_interior :
  (forall (data : list R) (i : nat),
      (0 < i)%nat -> (S i < length data)%nat -> nth i data 0 = 0 ->
      let out := final_store (average_zeroes data) in
      nth i out 0 = (nth (i - 1) out 0 + nth (S i) data 0) / 2 /\
      (nth (i - 1) data 0 <> 0 ->
       nth i out 0 = (nth (i - 1) data 0 + nth (S i) data 0) / 2)) /\
  (forall (data : list R) (j : nat),
      nth j data 0 <> 0 -> nth j (final_store (average_zeroes data)) 0 = nth j data 0) /\
  (forall data : list R,
      nth (length data - 1) data 0 <> 0 ->
      average_zeroes data = Returned (final_store (average_zeroes data))) /\
  average_zeroes [2; 0; 4] = Returned [2; 3; 4].
Proof.
  split; [|split; [|split]].
  - intros data i Hi Hlen Hz out.
    assert (E : nth i out 0 = (nth (i - 1) out 0 + nth (S i) data 0) / 2).
    { subst out; unfold average_zeroes.
      pose proof (az_loop_zero (length data) 0 i data eq_refl
                    ltac:(lia) Hlen Hz) as Hm.
      cbv zeta in Hm. destruct i as [|i']; [lia|].
      now replace (S i' - 1)%nat with i' by lia. }
    split; [exact E|].
    intros Hl. rewrite E. subst out. unfold average_zeroes.
    now rewrite (az_loop_nonzero (length data) 0 (i - 1) data eq_refl ltac:(lia) Hl).
  - intros data j Hnz. unfold average_zeroes.
    apply az_loop_nonzero; auto; lia.
  - intros data Hl. unfold average_zeroes. now apply az_loop_returns.
  - az_run. repeat f_equal; lra.
Qed.

Lemma average_zeroes_interior_witness :
  nth 1 (final_store (average_zeroes [2; 0; 4])) 0
  = (nth 0 (final_store (average_zeroes [2; 0; 4])) 0 + nth 2 [2; 0; 4] 0) / 2.
Proof.
  apply (proj1 average_zeroes_interior [2; 0; 4] 1%nat).
  - lia.
  - simpl; lia.
  - reflexivity.
Defined.

(** C9: on a sequence of length at least 1 whose last entry is zero the loop
    reaches the last index, reads one position past the end and raises
    [IndexError]; no sequence is returned. *)
Theorem average_zeroes_last_zero_fails (data : list R) :
  (1 <= length data)%nat -> nth (length data - 1) data 0 = 0 ->
  py_index (final_store (average_zeroes data)) (Z.of_nat (length data))
    = Raise IndexError /\
  exists d, average_zeroes data = Failed IndexError d.
Proof.
  intros HL Hz. split.
  - pose proof (az_loop_length (length data) 0 data eq_refl) as E.
    fold (average_zeroes data) in E. rewrite <- E.
    apply py_index_past_end.
  - unfold average_zeroes. destruct (length data) as [|n] eqn:E; [lia|].
    apply az_loop_fails; rewrite E; auto.
Qed.

Lemma average_zeroes_last_zero_fails_witness :
  exists d, average_zeroes [1; 0] = Failed IndexError d.
Proof.
  apply (average_zeroes_last_zero_fails [1; 0]).
  - simpl; lia.
  - reflexivity.
Defined.

(** C10: on a sequence of length at least 2 whose first entry is zero, the
    first iteration does not fail: it writes the mean of the last and of the
    second entry at index 0, and that value is the one left there; the call
    returns it when the last entry is not zero. *)
Theorem average_zeroes_first_zero_wraps (data : list R) :
  (2 <= length data)%nat -> nth 0 data 0 = 0 ->
  let mean := (nth (length data - 1) data 0 + nth 1 data 0) / 2 in
  average_zeroes data
    = average_zeroes_loop (length data - 1) 1 (setitem data 0 mean) /\
  nth 0 (final_store (average_zeroes data)) 0 = mean /\
  (nth (length data - 1) data 0 <> 0 ->
   exists out, average_zeroes data = Returned out /\ nth 0 out 0 = mean).
Proof.
  intros HL Hz mean.
  assert (E : average_zeroes data
              = average_zeroes_loop (length data - 1) 1 (setitem data 0 mean)).
  { unfold average_zeroes. destruct (length data) as [|n] eqn:EL; [lia|].
    rewrite az_step_zero by (auto; lia).
    replace (S n - 1)%nat with n by lia.
    subst mean. rewrite EL. reflexivity. }
  assert (V : nth 0 (final_store (average_zeroes data)) 0 = mean).
  { rewrite E. rewrite az_loop_prefix by (try rewrite setitem_length; lia).
    apply nth_setitem_same; lia. }
  split; [exact E|]. split; [exact V|].
  intros Hl. exists (final_store (average_zeroes data)). split; [|exact V].
  unfold average_zeroes. now apply az_loop_returns.
Qed.

Lemma average_zeroes_first_zero_wraps_witness :
  nth 0 (final_store (average_zeroes [0; 3; 5])) 0
  = (nth (length [0; 3; 5] - 1) [0; 3; 5] 0 + nth 1 [0; 3; 5] 0) / 2.
Proof.
  apply (average_zeroes_first_zero_wraps [0; 3; 5]).
  - simpl; lia.
  - reflexivity.
Defined.

(** ** [gaussf] *)

Lemma in_py_range (lo hi i : Z) : In i (py_range lo hi) <-> (lo <= i < hi)%Z.
Proof.
  unfold py_range. rewrite in_map_iff. split.
  - intros [k [<- Hk]]. apply in_seq in Hk. lia.
  - intros H. exists (Z.to_nat (i - lo)). split; [lia|].
    apply in_seq. lia.
Qed.

Lemma length_py_range (lo hi : Z) : length (py_range lo hi) = Z.to_nat (hi - lo).
Proof. unfold py_range. now rewrite length_map, length_seq. Qed.

Lemma map_combine_maps {A : Type} (f g : A -> R) (l : list A) :
  map (fun p => fst p + snd p) (combine (map f l) (map g l))
  = map (fun v => f v + g v) l.
Proof. induction l as [|h t IH]; simpl; [reflexivity|now rewrite IH]. Qed.

(** The accumulator after the first [m] rounds of the loop of [gaussf]. *)
Lemma gaussf_rounds (x : list R) (a s x0 : R) (m : nat) :
  fold_left (fun y i => nd_add y (map (lobe a s x0 i) x))
    (map (fun k => (1 + Z.of_nat k)%Z) (seq 0 m)) (Scalar 0)
  = match m with
    | O => Scalar 0
    | S _ => Arr (map (lobe_sum a s x0 m) x)
    end.
Proof.
  induction m as [|m IH]; [reflexivity|].
  rewrite seq_S, map_app, fold_left_app, IH. cbn [map fold_left Nat.add].
  replace (1 + Z.of_nat m)%Z with (Z.of_nat (S m)) by lia.
  destruct m as [|m'].
  - cbn [nd_add]. rewrite map_map. reflexivity.
  - cbn [nd_add]. rewrite map_combine_maps. reflexivity.
Qed.

(** C4: [gaussf] is, at every abscissa, the sum of the lobes of harmonic
    index 1 to [n-1]; the loop runs over exactly the indices [1 <= i < n],
    which are [n-1] many (none when [n <= 1], where the integer 0 comes
    back). *)
Theorem gaussf_sums_lobes (x : list R) (a s x0 : R) (n : Z) :
  gaussf x a s x0 n
  = (if (n <=? 1)%Z then Scalar 0
     else Arr (map (lobe_sum a s x0 (Z.to_nat (n - 1))) x)) /\
  length (py_range 1 n) = Z.to_nat (n - 1) /\
  (forall i, In i (py_range 1 n) <-> (1 <= i < n)%Z).
Proof.
  split; [|split].
  - unfold gaussf, py_range. rewrite gaussf_rounds.
    destruct (Z.leb_spec n 1) as [H|H].
    + now replace (Z.to_nat (n - 1)) with 0%nat by lia.
    + destruct (Z.to_nat (n - 1)) eqn:E; [lia|reflexivity].
  - apply length_py_range.
  - intros i. apply in_py_range.
Qed.

(** ** [min] and [max] *)

Lemma fold_min_spec (xs : list R) (x : R) :
  let m := fold_left (fun m v => if Rlt_dec v m then v else m) xs x in
  In m (x :: xs) /\ forall v, In v (x :: xs) -> m <= v.
Proof.
  revert x; induction xs as [|h t IH]; intros x; cbn [fold_left].
  - split; [now left|]. intros v [<-|[]]. lra.
  - destruct (Rlt_dec h x) as [Hlt|Hge].
    + destruct (IH h) as [Hin Hle]. split.
      * destruct Hin as [E|Hin]; [right; left; exact E|right; right; exact Hin].
      * intros v [<-|[<-|Hv]].
        -- pose proof (Hle h (or_introl eq_refl)). lra.
        -- apply Hle; now left.
        -- apply Hle; now right.
    + destruct (IH x) as [Hin Hle]. split.
      * destruct Hin as [E|Hin]; [left; exact E|right; right; exact Hin].
      * intros v [<-|[<-|Hv]].
        -- apply Hle; now left.
        -- pose proof (Hle x (or_introl eq_refl)). lra.
        -- apply Hle; now right.
Qed.

Lemma fold_max_spec (xs : list R) (x : R) :
  let m := fold_left (fun m v => if Rgt_dec v m then v else m) xs x in
  In m (x :: xs) /\ forall v, In v (x :: xs) -> v <= m.
Proof.
  revert x; induction xs as [|h t IH]; intros x; cbn [fold_left].
  - split; [now left|]. intros v [<-|[]]. lra.
  - destruct (Rgt_dec h x) as [Hgt|Hle'].
    + destruct (IH h) as [Hin Hle]. split.
      * destruct Hin as [E|Hin]; [right; left; exact E|right; right; exact Hin].
      * intros v [<-|[<-|Hv]].
        -- pose proof (Hle h (or_introl eq_refl)). lra.
        -- apply Hle; now left.
        -- apply Hle; now right.
    + destruct (IH x) as [Hin Hle]. split.
      * destruct Hin as [E|Hin]; [left; exact E|right; right; exact Hin].
      * intros v [<-|[<-|Hv]].
        -- apply Hle; now left.
        -- pose proof (Hle x (or_introl eq_refl)). lra.
        -- apply Hle; now right.
Qed.

Lemma py_min_spec (l : list R) :
  l <> [] -> exists m, py_min l = Ok m /\ In m l /\ forall v, In v l -> m <= v.
Proof.
  destruct l as [|x xs]; [congruence|]. intros _.
  eexists; split; [reflexivity|]. apply fold_min_spec.
Qed.

Lemma py_max_spec (l : list R) :
  l <> [] -> exists m, py_max l = Ok m /\ In m l /\ forall v, In v l -> v <= m.
Proof.
  destruct l as [|x xs]; [congruence|]. intros _.
  eexists; split; [reflexivity|]. apply fold_max_spec.
Qed.

Lemma py_max_ok (l : list R) (m : R) :
  py_max l = Ok m -> In m l /\ forall v, In v l -> v <= m.
Proof.
  destruct l as [|x xs]; [discriminate|]. intros H. injection H as <-.
  apply fold_max_spec.
Qed.

Lemma py_min_ok (l : list R) (m : R) :
  py_min l = Ok m -> In m l /\ forall v, In v l -> m <= v.
Proof.
  destruct l as [|x xs]; [discriminate|]. intros H. injection H as <-.
  apply fold_min_spec.
Qed.

(** ** [spaced_circle_points] *)

Lemma euclidean_nonneg (p q : point) : 0 <= euclidean p q.
Proof. apply sqrt_pos. Qed.

(** A candidate lies within [r = circle_radius * random()] of the centre. *)
Lemma candidate_to_centre (rnd : nat -> R) (k : nat) (circle_radius : R) (c : point) :
  euclidean (candidate_point rnd k circle_radius c) c
  = Rabs (circle_radius * rnd (S k)).
Proof.
  unfold euclidean, candidate_point; cbn [fst snd].
  set (r := circle_radius * rnd (S k)). set (t := 2 * PI * rnd k).
  replace ((r * cos t + fst c - fst c) ^ 2 + (r * sin t + snd c - snd c) ^ 2)
    with (Rsqr r * (Rsqr (sin t) + Rsqr (cos t))) by (unfold Rsqr; ring).
  rewrite sin2_cos2, Rmult_1_r. apply sqrt_Rsqr_abs.
Qed.

Lemma min_distance_spec (c : point) (points : list point) :
  points <> [] ->
  exists m, py_min (map (euclidean c) points) = Ok m /\
            (exists p, In p points /\ m = euclidean c p) /\
            forall p, In p points -> m <= euclidean c p.
Proof.
  intros Hne.
  destruct (py_min_spec (map (euclidean c) points)) as [m [E [Hin Hle]]].
  { destruct points; [congruence|discriminate]. }
  exists m. split; [exact E|]. split.
  - apply in_map_iff in Hin. destruct Hin as [p [Hp Hi]]. now exists p.
  - intros p Hp. apply Hle. now apply in_map.
Qed.

Lemma place_point_done (fuel : nat) (rnd : nat -> R) (k : nat) (cr : R) (c : point)
    (D : R) (points points' : list point) (k' : nat) :
  points <> [] ->
  place_point fuel rnd k cr c D points = Done (points', k') ->
  exists cand, points' = points ++ [cand] /\
               (length points = 1%nat \/ forall p, In p points -> D <= euclidean cand p).
Proof.
  intros Hne. revert k; induction fuel as [|fuel IH]; intros k H; [discriminate|].
  cbn [place_point] in H.
  destruct (min_distance_spec (candidate_point rnd k cr c) points Hne)
    as [m [E [_ Hle]]].
  rewrite E in H. unfold accepted in H.
  destruct (Rge_dec m D) as [Hge|Hlt]; cbn [orb] in H.
  - injection H as <- _. eexists; split; [reflexivity|].
    right. intros p Hp. specialize (Hle p Hp). lra.
  - destruct (Nat.eqb_spec (length points) 1).
    + injection H as <- _. eexists; split; [reflexivity|]. now left.
    + now apply IH in H.
Qed.

Lemma place_point_no_crash (fuel : nat) (rnd : nat -> R) (k : nat) (cr : R) (c : point)
    (D : R) (points : list point) (e : exn) :
  points <> [] -> place_point fuel rnd k cr c D points <> Crashed e.
Proof.
  intros Hne. revert k; induction fuel as [|fuel IH]; intros k; [discriminate|].
  cbn [place_point].
  destruct (min_distance_spec (candidate_point rnd k cr c) points Hne) as [m [E _]].
  rewrite E. destruct (accepted m D points); [discriminate|apply IH].
Qed.

(** The first extra point is taken whatever its distance to the centre. *)
Lemma place_point_second (fuel : nat) (rnd : nat -> R) (k : nat) (cr : R) (c : point)
    (D : R) (p : point) :
  place_point (S fuel) rnd k cr c D [p]
  = Done ([p; candidate_point rnd k cr c], S (S k)).
Proof.
  cbn [place_point map py_min fold_left]. unfold accepted.
  cbn [length Nat.eqb]. now rewrite orb_true_r.
Qed.

Lemma place_point_no_spread (fuel : nat) (rnd : nat -> R) (k : nat) (cr : R) (c : point)
    (D : R) (points : list point) :
  points <> [] -> D <= 0 ->
  place_point (S fuel) rnd k cr c D points
  = Done (points ++ [candidate_point rnd k cr c], S (S k)).
Proof.
  intros Hne HD. cbn [place_point].
  destruct (min_distance_spec (candidate_point rnd k cr c) points Hne)
    as [m [E [[p [_ Hm]] _]]].
  rewrite E. unfold accepted.
  destruct (Rge_dec m D) as [Hge|Hlt]; [reflexivity|].
  exfalso. apply Hlt. pose proof (euclidean_nonneg (candidate_point rnd k cr c) p). lra.
Qed.

(** Once the centre and one more point are placed, a separation larger than
    the radius rejects every draw. *)
Lemma place_point_starves (fuel : nat) (rnd : nat -> R) (k : nat) (cr : R) (c : point)
    (D : R) (points : list point) :
  (forall i, 0 <= rnd i < 1) -> 0 <= cr -> cr < D ->
  In c points -> (2 <= length points)%nat ->
  place_point fuel rnd k cr c D points = OutOfFuel.
Proof.
  intros Hrnd Hcr HD Hc Hlen. revert k; induction fuel as [|fuel IH]; intros k;
    [reflexivity|].
  cbn [place_point].
  destruct (min_distance_spec (candidate_point rnd k cr c) points) as [m [E [_ Hle]]].
  { intros ->; simpl in Hlen; lia. }
  rewrite E. unfold accepted.
  specialize (Hle c Hc). rewrite candidate_to_centre in Hle.
  assert (Hr : Rabs (cr * rnd (S k)) <= cr).
  { rewrite Rabs_right.
    - pose proof (Hrnd (S k)). nra.
    - pose proof (Hrnd (S k)). nra. }
  destruct (Rge_dec m D) as [Hge|Hlt]; [lra|].
  destruct (Nat.eqb_spec (length points) 1); [lia|].
  cbn [orb]. apply IH.
Qed.

Lemma spread_short (D : R) (pts : list point) :
  (length pts <= 2)%nat -> spread D pts.
Proof. intros H i j Hij Hj H2. lia. Qed.

Lemma spread_snoc (D : R) (pts : list point) (cand : point) :
  spread D pts ->
  (length pts = 1%nat \/ forall p, In p pts -> D <= euclidean cand p) ->
  spread D (pts ++ [cand]).
Proof.
  intros Hs Hc i j Hij Hj H2. rewrite length_app in Hj. cbn [length] in Hj.
  destruct (Nat.eq_dec j (length pts)) as [->|Hne].
  - rewrite nth_middle. rewrite app_nth1 by lia.
    destruct Hc as [H1|Hall]; [lia|]. apply Hall. apply nth_In. lia.
  - rewrite !app_nth1 by lia. apply Hs; lia.
Qed.

Lemma place_points_done (iters fuel : nat) (rnd : nat -> R) (k : nat) (cr : R)
    (c : point) (D : R) (points out : list point) :
  points <> [] -> spread D points ->
  place_points iters fuel rnd k cr c D points = Done out ->
  length out = (length points + iters)%nat /\
  nth 0 out (0, 0) = nth 0 points (0, 0) /\
  spread D out.
Proof.
  revert k points; induction iters as [|iters IH]; intros k points Hne Hs H.
  - injection H as <-. repeat split; auto.
  - cbn [place_points] in H.
    destruct (place_point fuel rnd k cr c D points) as [[points' k']| |] eqn:E;
      try discriminate.
    destruct (place_point_done _ _ _ _ _ _ _ _ _ Hne E) as [cand [-> Hc]].
    apply IH in H.
    + destruct H as [HL [H0 HS]]. rewrite length_app in HL. cbn [length] in HL.
      repeat split; [lia| |exact HS].
      rewrite H0. apply app_nth1. destruct points; [congruence|simpl; lia].
    + destruct points; discriminate.
    + now apply spread_snoc.
Qed.

Lemma place_points_no_crash (iters fuel : nat) (rnd : nat -> R) (k : nat) (cr : R)
    (c : point) (D : R) (points : list point) (e : exn) :
  points <> [] -> place_points iters fuel rnd k cr c D points <> Crashed e.
Proof.
  revert k points; induction iters as [|iters IH]; intros k points Hne;
    [discriminate|].
  cbn [place_points].
  destruct (place_point fuel rnd k cr c D points) as [[points' k']| |] eqn:E.
  - destruct (place_point_done _ _ _ _ _ _ _ _ _ Hne E) as [cand [-> _]].
    apply IH. destruct points; discriminate.
  - now apply place_point_no_crash in E.
  - discriminate.
Qed.

Lemma place_points_no_spread (iters fuel : nat) (rnd : nat -> R) (k : nat) (cr : R)
    (c : point) (D : R) (points : list point) :
  points <> [] -> D <= 0 ->
  exists out, place_points iters (S fuel) rnd k cr c D points = Done out.
Proof.
  revert k points; induction iters as [|iters IH]; intros k points Hne HD.
  - now exists points.
  - cbn [place_points]. rewrite place_point_no_spread by auto.
    apply IH; auto. destruct points; discriminate.
Qed.

(** With three points or more to place and a separation larger than the
    radius, the sampler is still redrawing when any amount of fuel is spent. *)
Lemma spaced_circle_points_starves (fuel : nat) (rnd : nat -> R) (num_points : Z)
    (cr : R) (c : point) (D : R) :
  (forall i, 0 <= rnd i < 1) -> (3 <= num_points)%Z -> 0 <= cr -> cr < D ->
  spaced_circle_points fuel rnd num_points cr c D = OutOfFuel.
Proof.
  intros Hrnd HN Hcr HD. unfold spaced_circle_points.
  destruct (Z.to_nat (num_points - 1)) as [|[|iters]] eqn:E; try lia.
  destruct fuel as [|fuel]; [reflexivity|].
  cbn [place_points]. rewrite place_point_second.
  rewrite place_point_starves; auto; simpl; auto.
Qed.

(** ** The colour of a point *)

Lemma plot_colour_cases (m r : R) :
  0 <= r ->
  (m <= r -> plot_colour m r = red) /\
  (r < m <= 1.05 * r -> plot_colour m r = gold) /\
  (1.05 * r < m -> plot_colour m r = green).
Proof.
  intros Hr. unfold plot_colour.
  destruct (Rle_dec m r) as [H1|H1]; destruct (Rgt_dec m r) as [H2|H2];
    destruct (Rle_dec m (1.05 * r)) as [H3|H3]; cbn [andb];
    repeat split; intros; try reflexivity; exfalso; lra.
Qed.

(** ** The penalty *)

Lemma penalised_iff (peak_distance num_spec_peaks : Z) :
  penalised peak_distance num_spec_peaks = true
  <-> (peak_distance > 3 * num_spec_peaks \/ num_spec_peaks < 2)%Z.
Proof.
  unfold penalised. rewrite orb_true_iff, Z.gtb_ltb, !Z.ltb_lt. lia.
Qed.

Lemma fold_left_Rplus_nonneg (l : list R) (acc : R) :
  Forall (fun v => 0 <= v) l -> 0 <= acc -> 0 <= fold_left Rplus l acc.
Proof.
  revert acc; induction l as [|h t IH]; intros acc Hl Hacc; cbn [fold_left]; auto.
  inversion Hl; subst. apply IH; auto. lra.
Qed.

Lemma chi2_of_nonneg (y_flux : list R) (f_exp : ndarray) (uncert : list R) :
  0 <= chi2_of y_flux f_exp uncert.
Proof.
  unfold chi2_of, py_sum. apply fold_left_Rplus_nonneg; [|lra].
  apply Forall_forall. intros v Hv. apply in_map_iff in Hv.
  destruct Hv as [p [<- _]]. apply pow2_ge_0.
Qed.

Lemma penalise_nonneg (peak_distance num_spec_peaks : Z) (chi2 : R) :
  0 <= chi2 -> 0 <= penalise peak_distance num_spec_peaks chi2.
Proof. intros H. unfold penalise. destruct penalised; lra. Qed.

Section ZfindFacts.

Variable curve_fit :
  (list R -> R -> R -> ndarray) -> list R -> list R -> (R * R) * (R * R) -> option (R * R).
Variable argsort : ndarray -> list Z.
Variable fits_flux : point -> list R * list R.
Variable channel_peaks : list R -> list Z.
Variable ftransition : R.
Variable x_axis_flux : list R.
Variable num_gaussians : Z.
Variable z : list R.

Local Abbreviation fit := (try_fit curve_fit ftransition x_axis_flux num_gaussians).
Local Abbreviation raw_chi2 := (raw_chi2 ftransition x_axis_flux num_gaussians).
Local Abbreviation total_distance :=
  (total_distance argsort ftransition x_axis_flux num_gaussians).
Local Abbreviation candidate :=
  (zfind_candidate curve_fit argsort ftransition x_axis_flux num_gaussians).
Local Abbreviation search :=
  (grid_search curve_fit argsort ftransition x_axis_flux num_gaussians).
Local Abbreviation process :=
  (zfind_point curve_fit argsort fits_flux channel_peaks ftransition x_axis_flux
     num_gaussians z).
Local Abbreviation scan :=
  (zfind_points curve_fit argsort fits_flux channel_peaks ftransition x_axis_flux
     num_gaussians z).

Lemma candidate_converged (y_flux uncert : list R) (spec_peaks : list Z)
    (st : fit_arrays) (ddz : R) (params : R * R) :
  fit y_flux ddz = Ok (Some params) ->
  candidate y_flux uncert spec_peaks st ddz
  = Ok (mk_fit_arrays
          (chi2_array st
             ++ [penalise (total_distance spec_peaks ddz params)
                   (Z.of_nat (length spec_peaks))
                   (raw_chi2 y_flux uncert ddz params)])
          (param_array st ++ [params])).
Proof using Type. intros H. unfold zfind_candidate. rewrite H. reflexivity. Qed.

Lemma candidate_failed (y_flux uncert : list R) (spec_peaks : list Z)
    (st : fit_arrays) (ddz : R) :
  fit y_flux ddz = Ok None ->
  candidate y_flux uncert spec_peaks st ddz
  = (m <- py_max (chi2_array st) ;;
     Ok (mk_fit_arrays (chi2_array st ++ [m]) (param_array st))).
Proof using Type. intros H. unfold zfind_candidate. rewrite H. reflexivity. Qed.

Lemma search_app (y_flux uncert : list R) (spec_peaks : list Z)
    (st : fit_arrays) (zs1 zs2 : list R) :
  search y_flux uncert spec_peaks st (zs1 ++ zs2)
  = (st' <- search y_flux uncert spec_peaks st zs1 ;;
     search y_flux uncert spec_peaks st' zs2).
Proof using Type.
  revert st; induction zs1 as [|ddz zs1 IH]; intros st; [reflexivity|].
  cbn [app grid_search].
  destruct (candidate y_flux uncert spec_peaks st ddz) as [st1|e]; cbn [bind];
    [apply IH|reflexivity].
Qed.

(** One candidate adds one chi-squared, which is not negative when the
    earlier ones are not, and at most one pair of parameters. *)
Lemma candidate_step (y_flux uncert : list R) (spec_peaks : list Z)
    (st st' : fit_arrays) (ddz : R) :
  candidate y_flux uncert spec_peaks st ddz = Ok st' ->
  length (chi2_array st') = S (length (chi2_array st)) /\
  (length (param_array st') <= S (length (param_array st)))%nat /\
  (Forall (fun c => 0 <= c) (chi2_array st) ->
   Forall (fun c => 0 <= c) (chi2_array st')).
Proof using Type.
  intros H. destruct (fit y_flux ddz) as [[params|]|e] eqn:E.
  - rewrite (candidate_converged _ _ _ _ _ _ E) in H. injection H as <-.
    cbn [chi2_array param_array]. rewrite !length_app. cbn [length].
    repeat split; try lia. intros Hf. apply Forall_app. split; [exact Hf|].
    constructor; [|constructor]. apply penalise_nonneg, chi2_of_nonneg.
  - rewrite (candidate_failed _ _ _ _ _ E) in H.
    destruct (py_max (chi2_array st)) as [m|e] eqn:Em; [|discriminate].
    apply py_max_ok in Em. destruct Em as [Hin _].
    cbn [bind] in H. injection H as <-.
    cbn [chi2_array param_array]. rewrite !length_app. cbn [length].
    repeat split; try lia. intros Hf. apply Forall_app. split; [exact Hf|].
    constructor; [|constructor]. rewrite Forall_forall in Hf. now apply Hf.
  - unfold zfind_candidate in H. rewrite E in H. discriminate.
Qed.

Lemma search_steps (y_flux uncert : list R) (spec_peaks : list Z)
    (st st' : fit_arrays) (zs : list R) :
  search y_flux uncert spec_peaks st zs = Ok st' ->
  length (chi2_array st') = (length (chi2_array st) + length zs)%nat /\
  (length (param_array st') <= length (param_array st) + length zs)%nat /\
  (Forall (fun c => 0 <= c) (chi2_array st) ->
   Forall (fun c => 0 <= c) (chi2_array st')).
Proof using Type.
  revert st; induction zs as [|ddz zs IH]; intros st H.
  - injection H as <-. repeat split; auto; lia.
  - cbn [grid_search] in H.
    destruct (candidate y_flux uncert spec_peaks st ddz) as [st1|e] eqn:E;
      [|discriminate].
    cbn [bind] in H. apply IH in H. apply candidate_step in E.
    cbn [length]. destruct H as [H1 [H2 H3]], E as [E1 [E2 E3]].
    repeat split; try lia. auto.
Qed.

(** C1: for a candidate whose fit converged, the chi-squared that is recorded
    is the computed one times 1.2 when the total peak distance exceeds three
    times the number of detected peaks or fewer than two peaks were detected,
    and the computed one itself otherwise; so no detected peak always brings
    the penalty, and two peaks or more at total distance 0 never do. *)
Theorem penalty_rule (y_flux uncert : list R) (spec_peaks : list Z)
    (st : fit_arrays) (ddz : R) (params : R * R) :
  fit y_flux ddz = Ok (Some params) ->
  let n := Z.of_nat (length spec_peaks) in
  let d := total_distance spec_peaks ddz params in
  let chi2 := raw_chi2 y_flux uncert ddz params in
  exists recorded : R,
    candidate y_flux uncert spec_peaks st ddz
    = Ok (mk_fit_arrays (chi2_array st ++ [recorded]) (param_array st ++ [params])) /\
    ((d > 3 * n \/ n < 2)%Z -> recorded = chi2 * 1.2) /\
    (~ (d > 3 * n \/ n < 2)%Z -> recorded = chi2) /\
    (n = 0%Z -> recorded = chi2 * 1.2) /\
    ((2 <= n)%Z -> d = 0%Z -> recorded = chi2).
Proof using Type.
  clear fits_flux channel_peaks z.
  intros Hfit n d chi2.
  exists (penalise d n chi2). split; [now apply candidate_converged|].
  unfold penalise.
  pose proof (penalised_iff d n) as Hiff.
  destruct (penalised d n); repeat split; intros; try reflexivity.
  - exfalso. apply H. now apply Hiff.
  - exfalso. assert (true = true) as Ht by reflexivity. apply Hiff in Ht. lia.
  - assert (false = true) as Hf by (apply Hiff; tauto). discriminate.
  - assert (false = true) as Hf by (apply Hiff; lia). discriminate.
Qed.

(** C2: when the fit of a candidate that is not the first one fails, the
    step ends normally; it appends to the chi-squared sequence the maximum of
    the values recorded for the earlier candidates, leaves the parameter
    sequence as it was, and the scan goes on from there. *)
Theorem failed_fit_takes_running_max (y_flux uncert : list R) (spec_peaks : list Z)
    (earlier : list R) (ddz : R) (st : fit_arrays) :
  earlier <> [] ->
  search y_flux uncert spec_peaks (mk_fit_arrays [] []) earlier = Ok st ->
  fit y_flux ddz = Ok None ->
  exists m : R,
    py_max (chi2_array st) = Ok m /\
    In m (chi2_array st) /\
    (forall c, In c (chi2_array st) -> c <= m) /\
    candidate y_flux uncert spec_peaks st ddz
    = Ok (mk_fit_arrays (chi2_array st ++ [m]) (param_array st)) /\
    forall later : list R,
      search y_flux uncert spec_peaks (mk_fit_arrays [] []) (earlier ++ ddz :: later)
      = search y_flux uncert spec_peaks
          (mk_fit_arrays (chi2_array st ++ [m]) (param_array st)) later.
Proof using Type.
  intros Hne Hpre Hfit.
  destruct (search_steps _ _ _ _ _ _ Hpre) as [Hlen _]. cbn [chi2_array length] in Hlen.
  destruct (py_max_spec (chi2_array st)) as [m [Em [Hin Hmax]]].
  { intros E. rewrite E in Hlen. destruct earlier; [congruence|simpl in Hlen; lia]. }
  assert (Hstep : candidate y_flux uncert spec_peaks st ddz
                  = Ok (mk_fit_arrays (chi2_array st ++ [m]) (param_array st))).
  { rewrite candidate_failed by exact Hfit. now rewrite Em. }
  exists m. repeat split; auto.
  intros later. rewrite search_app, Hpre. cbn [bind grid_search].
  now rewrite Hstep.
Qed.

(** A failed fit adds no parameters: a scan with a failed candidate ends
    with fewer parameter pairs than candidates. *)
Lemma search_drops_params (y_flux uncert : list R) (spec_peaks : list Z)
    (st st' : fit_arrays) (zs : list R) (ddz : R) :
  search y_flux uncert spec_peaks st zs = Ok st' ->
  In ddz zs -> fit y_flux ddz = Ok None ->
  (length (param_array st') < length (param_array st) + length zs)%nat.
Proof using Type.
  revert st; induction zs as [|ddz0 zs IH]; intros st H Hin Hfit; [contradiction|].
  cbn [grid_search] in H.
  destruct (candidate y_flux uncert spec_peaks st ddz0) as [st1|e] eqn:E;
    [|discriminate].
  cbn [bind length] in H |- *.
  destruct Hin as [->|Hin].
  - rewrite candidate_failed in E by exact Hfit.
    destruct (py_max (chi2_array st)) as [m|e]; [|discriminate].
    cbn [bind] in E. injection E as <-.
    apply search_steps in H. cbn [param_array] in H. lia.
  - apply candidate_step in E. specialize (IH st1 H Hin Hfit). lia.
Qed.

(** ** The loop over the points *)

Lemma process_spec (index : nat) (st st' : finder) (coord : point) :
  process index st coord = Ok st' ->
  exists (chi2s : list R) (m : R) (col : colour) (tgt : R),
    all_chi2 st' = all_chi2 st ++ [chi2s] /\
    plot_colours st' = plot_colours st ++ [col] /\
    target_chi2 st' = Some tgt /\
    py_min chi2s = Ok m /\ 0 <= m /\
    (index = 0%nat -> col = black /\ tgt = m) /\
    (index <> 0%nat -> target_chi2 st = Some tgt /\ col = plot_colour m tgt).
Proof using Type.
  unfold zfind_point. destruct (fits_flux coord) as [y_flux0 uncert0].
  destruct (average_zeroes uncert0) as [uncert1|e d]; [|discriminate].
  set (y_flux := map (fun v => v * 1000) y_flux0).
  set (uncert := map (fun v => v * 1000) uncert1).
  set (peaks := np_sort (channel_peaks y_flux)).
  destruct (search y_flux uncert peaks (mk_fit_arrays [] []) z) as [arrays|e] eqn:Es;
    [|discriminate].
  cbn [bind].
  destruct (py_min (chi2_array arrays)) as [m|e] eqn:Em; [|discriminate].
  cbn [bind].
  assert (Hm : 0 <= m).
  { apply search_steps in Es. destruct Es as [_ [_ Hf]].
    specialize (Hf (Forall_nil _)). rewrite Forall_forall in Hf.
    apply Hf. now apply py_min_ok in Em. }
  destruct (Nat.eqb_spec index 0) as [Hi|Hi].
  - cbn [bind fst snd].
    destruct (np_argmin (chi2_array arrays)) as [li|e]; [|discriminate].
    cbn [bind]. destruct (py_index z (Z.of_nat li)) as [lz|e]; [|discriminate].
    cbn [bind]. intros H. injection H as <-.
    exists (chi2_array arrays), m, black, m. cbn.
    repeat split; auto; contradiction.
  - destruct (target_chi2 st) as [t|] eqn:Et; [|discriminate].
    cbn [bind fst snd].
    destruct (np_argmin (chi2_array arrays)) as [li|e]; [|discriminate].
    cbn [bind]. destruct (py_index z (Z.of_nat li)) as [lz|e]; [|discriminate].
    cbn [bind]. intros H. injection H as <-.
    exists (chi2_array arrays), m, (plot_colour m t), t. cbn.
    repeat split; auto; contradiction.
Qed.

Lemma process_coloured (index : nat) (st st' : finder) (coord : point) :
  process index st coord = Ok st' -> coloured index st -> coloured (S index) st'.
Proof using Type.
  intros H [Hc [Ha [Ht Hi]]].
  destruct (process_spec _ _ _ _ H)
    as [chi2s [m [col [tgt [Ea [Ec [Et [Em [Hm [H0 Hn0]]]]]]]]]].
  unfold coloured. rewrite Ea, Ec, Et, !length_app. cbn [length].
  split; [lia|]. split; [lia|]. split.
  - intros _. exists tgt. split; [reflexivity|].
    destruct (Nat.eq_dec index 0) as [E0|E0].
    + destruct (H0 E0) as [_ ->].
      destruct (all_chi2 st); [|simpl in Ha; lia]. cbn. auto.
    + destruct (Hn0 E0) as [Etgt _]. destruct (Ht E0) as [r [Er [Emin Hr]]].
      rewrite Er in Etgt. injection Etgt as <-.
      rewrite app_nth1 by lia. auto.
  - intros i Hrange.
    assert (E0 : index <> 0%nat) by lia.
    destruct (Hn0 E0) as [Etgt Ecol].
    destruct (Nat.eq_dec i index) as [->|Hlt].
    + exists m. rewrite <- Ha at 1. rewrite nth_middle. split; [exact Em|].
      intros r Er. injection Er as <-. rewrite <- Hc at 1. now rewrite nth_middle.
    + destruct (Hi i ltac:(lia)) as [mi [Emi Hcol]].
      exists mi. rewrite !app_nth1 by lia. split; [exact Emi|].
      intros r Er. injection Er as <-. now apply Hcol.
Qed.

Lemma scan_coloured (index : nat) (st st' : finder) (coordinates : list point) :
  scan index st coordinates = Ok st' -> coloured index st ->
  coloured (index + length coordinates) st'.
Proof using Type.
  revert index st; induction coordinates as [|coord rest IH]; intros index st H Hc.
  - injection H as <-. now rewrite Nat.add_0_r.
  - cbn [zfind_points] in H.
    destruct (process index st coord) as [st1|e] eqn:E; [|discriminate].
    cbn [bind] in H. apply IH in H.
    + cbn [length]. now rewrite Nat.add_succ_r.
    + now apply process_coloured in E.
Qed.

Lemma new_finder_coloured : coloured 0 new_finder.
Proof using Type.
  unfold coloured, new_finder; cbn. repeat split; try lia; try congruence.
Qed.

(** C3: after a run over the sampled points, with [r] the minimum
    chi-squared of the first point and [m] the one of a later point, that
    point is red (improved) when [m <= r], gold (comparable) when
    [r < m <= 1.05 r] and green (worse) when [m > 1.05 r]; for [r = 100],
    105 is gold, 106 is green and 99 is red. *)
Theorem categorisation :
  (forall (coordinates : list point) (st : finder) (i : nat),
      scan 0 new_finder coordinates = Ok st ->
      (0 < i < length coordinates)%nat ->
      exists r m : R,
        py_min (nth 0 (all_chi2 st) []) = Ok r /\
        py_min (nth i (all_chi2 st) []) = Ok m /\
        (m <= r -> nth i (plot_colours st) black = red) /\
        (r < m <= 1.05 * r -> nth i (plot_colours st) black = gold) /\
        (m > 1.05 * r -> nth i (plot_colours st) black = green)) /\
  plot_colour 105 100 = gold /\
  plot_colour 106 100 = green /\
  plot_colour 99 100 = red.
Proof using Type.
  split.
  - intros coordinates st i Hrun Hi.
    apply scan_coloured in Hrun; [|apply new_finder_coloured].
    cbn [Nat.add] in Hrun. destruct Hrun as [_ [_ [Ht Hcol]]].
    destruct Ht as [r [Er [Emin Hr]]]; [lia|].
    destruct (Hcol i Hi) as [m [Em Hc]].
    exists r, m. rewrite (Hc r Er).
    destruct (plot_colour_cases m r Hr) as [H1 [H2 H3]].
    repeat split; auto.
  - assert (H100 : 0 <= 100) by lra.
    destruct (plot_colour_cases 105 100 H100) as [_ [Hg _]].
    destruct (plot_colour_cases 106 100 H100) as [_ [_ Hw]].
    destruct (plot_colour_cases 99 100 H100) as [Hi' _].
    repeat split; [apply Hg|apply Hw|apply Hi']; lra.
Qed.

End ZfindFacts.

(** ** Runs on concrete inputs

    One channel at abscissa 1 with flux 1 and uncertainty 1, no detected
    peak, transition frequency 1 and two harmonics: the template of the
    candidate [z = 0] peaks at abscissa 1, the one of [z = 1] at 1/2. *)

Lemma probe_gaussf (loc : R) :
  probe (fun x a s => gaussf x a s loc 2) = 0 + lobe 1 1 loc 1 1.
Proof. reflexivity. Qed.

Lemma try_fit_on_peak :
  try_fit fit_on_peak 1 [1] 2 [1] 0 = Ok (Some (1, 1 / 4)).
Proof.
  unfold try_fit. cbn [py_max fold_left bind]. unfold fit_on_peak.
  rewrite probe_gaussf. unfold lobe.
  replace (- ((1 - 1 * (1 / (1 + 0))) / 1) ^ 2) with 0 by (cbn [pow]; field).
  rewrite exp_0. destruct (Rlt_dec (0 + 1 * 1) 1) as [H|H]; [lra|reflexivity].
Qed.

Lemma try_fit_off_peak :
  try_fit fit_on_peak 1 [1] 2 [1] 1 = Ok None.
Proof.
  unfold try_fit. cbn [py_max fold_left bind]. unfold fit_on_peak.
  rewrite probe_gaussf. unfold lobe.
  replace (- ((1 - 1 * (1 / (1 + 1))) / 1) ^ 2) with (- (1 / 4)) by (cbn [pow]; field).
  destruct (Rlt_dec (0 + 1 * exp (- (1 / 4))) 1) as [H|H]; [reflexivity|].
  exfalso. apply H.
  assert (exp (- (1 / 4)) < exp 0) by (apply exp_increasing; lra).
  rewrite exp_0 in *. lra.
Qed.

Lemma penalty_rule_witness :
  exists recorded : R,
    zfind_candidate fit_on_peak argsort_one 1 [1] 2 [1] [1] [] (mk_fit_arrays [] []) 0
    = Ok (mk_fit_arrays ([] ++ [recorded]) ([] ++ [(1, 1 / 4)])) /\
    recorded = raw_chi2 1 [1] 2 [1] [1] 0 (1, 1 / 4) * 1.2.
Proof.
  destruct (penalty_rule fit_on_peak argsort_one 1 [1] 2 [1] [1] []
              (mk_fit_arrays [] []) 0 (1, 1 / 4) try_fit_on_peak)
    as [recorded [Hstep [_ [_ [Hzero _]]]]].
  exists recorded. split; [exact Hstep|]. apply Hzero. reflexivity.
Defined.

Lemma failed_fit_takes_running_max_witness :
  exists (st : fit_arrays) (m : R),
    grid_search fit_on_peak argsort_one 1 [1] 2 [1] [1] [] (mk_fit_arrays [] []) [0]
    = Ok st /\
    zfind_candidate fit_on_peak argsort_one 1 [1] 2 [1] [1] [] st 1
    = Ok (mk_fit_arrays (chi2_array st ++ [m]) (param_array st)).
Proof.
  assert (Hpre : exists st,
             grid_search fit_on_peak argsort_one 1 [1] 2 [1] [1] []
               (mk_fit_arrays [] []) [0] = Ok st).
  { cbn [grid_search]. rewrite (candidate_converged _ _ _ _ _ _ _ _ _ _ _ try_fit_on_peak).
    cbn [bind]. eexists; reflexivity. }
  destruct Hpre as [st Hpre].
  destruct (failed_fit_takes_running_max fit_on_peak argsort_one 1 [1] 2 [1] [1] []
              [0] 1 st ltac:(discriminate) Hpre try_fit_off_peak)
    as [m [_ [_ [_ [Hstep _]]]]].
  exists st, m. split; [exact Hpre|exact Hstep].
Defined.

(** C8: a scan of the two candidates [0; 1] whose second fit fails ends with
    two chi-squared values and a single pair of parameters. *)
Theorem failed_fit_misaligns_params :
  exists st : fit_arrays,
    grid_search fit_on_peak argsort_one 1 [1] 2 [1] [1] [] (mk_fit_arrays [] []) [0; 1]
    = Ok st /\
    length (chi2_array st) = length [0; 1] /\
    param_array st = [(1, 1 / 4)] /\
    (length (param_array st) < length [0; 1])%nat.
Proof.
  cbn [grid_search].
  rewrite (candidate_converged _ _ _ _ _ _ _ _ _ _ _ try_fit_on_peak). cbn [bind].
  rewrite (candidate_failed _ _ _ _ _ _ _ _ _ _ try_fit_off_peak).
  cbn [chi2_array param_array app py_max fold_left bind].
  eexists. split; [reflexivity|]. cbn. repeat split; lia.
Qed.

Lemma categorisation_witness :
  exists st : finder,
    zfind_points fit_always argsort_one (fun _ => ([1], [1])) (fun _ => []) 1 [1] 2 [0]
      0 new_finder [(0, 0); (1, 1)] = Ok st /\
    exists r m : R,
      py_min (nth 0 (all_chi2 st) []) = Ok r /\
      py_min (nth 1 (all_chi2 st) []) = Ok m /\
      (m <= r -> nth 1 (plot_colours st) black = red) /\
      (r < m <= 1.05 * r -> nth 1 (plot_colours st) black = gold) /\
      (m > 1.05 * r -> nth 1 (plot_colours st) black = green).
Proof.
  assert (Haz : average_zeroes [1] = Returned [1]).
  { unfold average_zeroes. cbn [length]. rewrite az_step_nonzero by (cbn [nth]; lra).
    reflexivity. }
  assert (Hrun : exists st,
             zfind_points fit_always argsort_one (fun _ => ([1], [1])) (fun _ => [])
               1 [1] 2 [0] 0 new_finder [(0, 0); (1, 1)] = Ok st).
  { cbv beta iota zeta delta [zfind_points zfind_point]. rewrite Haz.
    eexists; reflexivity. }
  destruct Hrun as [st Hrun]. exists st. split; [exact Hrun|].
  refine (proj1 (categorisation _ _ _ _ _ _ _ _) _ st 1%nat Hrun _).
  simpl; lia.
Defined.

(** * Further facts *)

(** ** [average_zeroes] on uncertainties *)

Lemma az_loop_no_zero (n i : nat) (data : list R) :
  (forall j, (i <= j)%nat -> (j < i + n)%nat -> nth j data 0 <> 0) ->
  average_zeroes_loop n i data = Returned data.
Proof.
  revert i; induction n as [|n IH]; intros i H; [reflexivity|].
  rewrite az_step_nonzero by (apply H; lia).
  apply IH. intros j Hj1 Hj2. apply H; lia.
Qed.

(** A sequence without a zero entry comes back as it is. *)
Theorem average_zeroes_identity (data : list R) :
  Forall (fun v => v <> 0) data -> average_zeroes data = Returned data.
Proof.
  intros H. unfold average_zeroes. apply az_loop_no_zero.
  intros j _ Hj. rewrite Forall_forall in H. apply H. apply nth_In. lia.
Qed.

Lemma average_zeroes_identity_witness :
  average_zeroes [1; 2] = Returned [1; 2].
Proof.
  apply (average_zeroes_identity [1; 2]).
  repeat constructor; lra.
Defined.

(** When no entry is negative and the last one is positive, the call
    returns a sequence of the same length in which every entry is positive:
    no zero uncertainty is left. *)
Theorem average_zeroes_leaves_no_zero (data : list R) :
  Forall (fun v => 0 <= v) data ->
  0 < nth (length data - 1) data 0 ->
  exists out,
    average_zeroes data = Returned out /\
    length out = length data /\
    Forall (fun v => 0 < v) out.
Proof.
  intros Hnn Hlast.
  exists (final_store (average_zeroes data)).
  assert (Hlen : length (final_store (average_zeroes data)) = length data)
    by (apply (az_loop_length (length data) 0 data eq_refl)).
  split; [|split; [exact Hlen|]].
  - unfold average_zeroes. apply az_loop_returns; [reflexivity|lra].
  - assert (Hin : forall j, (j < length data)%nat -> 0 <= nth j data 0).
    { intros j Hj. rewrite Forall_forall in Hnn. apply Hnn, nth_In, Hj. }
    assert (Hpos : forall j, (j < length data)%nat ->
                             0 < nth j (final_store (average_zeroes data)) 0).
    { induction j as [|j IHj]; intros Hj.
      - destruct (Req_dec_T (nth 0 data 0) 0) as [Hz|Hz].
        + destruct (Nat.eq_dec (length data) 1) as [E1|E1].
          { rewrite E1 in Hlast. cbn in Hlast. lra. }
          pose proof (az_loop_zero (length data) 0 0 data eq_refl
                        ltac:(lia) ltac:(lia) Hz) as Hm.
          cbv zeta in Hm. fold (average_zeroes data) in Hm. rewrite Hm.
          pose proof (Hin 1%nat ltac:(lia)). lra.
        + unfold average_zeroes. rewrite az_loop_nonzero by (auto; lia).
          pose proof (Hin 0%nat Hj). lra.
      - destruct (Req_dec_T (nth (S j) data 0) 0) as [Hz|Hz].
        + assert (S (S j) < length data)%nat.
          { destruct (Nat.eq_dec (S (S j)) (length data)) as [E|E]; [|lia].
            replace (length data - 1)%nat with (S j) in Hlast by lia. lra. }
          pose proof (az_loop_zero (length data) 0 (S j) data eq_refl
                        ltac:(lia) ltac:(lia) Hz) as Hm.
          cbv zeta in Hm. fold (average_zeroes data) in Hm. rewrite Hm.
          pose proof (IHj ltac:(lia)). pose proof (Hin (S (S j)) ltac:(lia)). lra.
        + unfold average_zeroes. rewrite az_loop_nonzero by (auto; lia).
          pose proof (Hin (S j) Hj). lra. }
    apply Forall_forall. intros v Hv.
    destruct (In_nth _ _ 0 Hv) as [j [Hj <-]]. apply Hpos. lia.
Qed.

Lemma average_zeroes_leaves_no_zero_witness :
  exists out,
    average_zeroes [0; 0; 3] = Returned out /\
    length out = length [0; 0; 3] /\
    Forall (fun v => 0 < v) out.
Proof.
  apply (average_zeroes_leaves_no_zero [0; 0; 3]).
  - repeat constructor; lra.
  - cbn. lra.
Defined.

(** ** [flatten_list] *)

Lemma append_each {A : Type} (array acc : list A) :
  fold_left (fun acc x => acc ++ [x]) array acc = acc ++ array.
Proof.
  revert acc; induction array as [|x t IH]; intros acc; cbn [fold_left].
  - now rewrite app_nil_r.
  - rewrite IH, <- app_assoc. reflexivity.
Qed.

Lemma flatten_from {A : Type} (input_list : list (list A)) (acc : list A) :
  fold_left
    (fun flattened_list array =>
       fold_left (fun acc x => acc ++ [x]) array flattened_list)
    input_list acc
  = acc ++ concat input_list.
Proof.
  revert acc; induction input_list as [|array t IH]; intros acc;
    cbn [fold_left concat].
  - now rewrite app_nil_r.
  - rewrite IH, append_each, <- app_assoc. reflexivity.
Qed.

(** [flatten_list] puts the items of the inner lists one after the other, in
    their order: it has as many items as the inner lists together, and an
    item is in it exactly when it is in one of them. *)
Theorem flatten_list_concat {A : Type} (input_list : list (list A)) :
  flatten_list input_list = concat input_list /\
  length (flatten_list input_list) = list_sum (map (@length A) input_list) /\
  (forall x, In x (flatten_list input_list)
             <-> exists array, In array input_list /\ In x array).
Proof.
  assert (E : flatten_list input_list = concat input_list)
    by (unfold flatten_list; now rewrite flatten_from).
  rewrite E. split; [reflexivity|]. split.
  - apply length_concat.
  - intros x. apply in_concat.
Qed.

(** ** [RedshiftPlotter.__init__] *)

(** For at least one plot and a positive number of plots per page, the
    layout has at least one page and never more axes than plots. It has one
    axis per plot exactly when there are fewer than five plots and either a
    single plot or one plot per page, or at least five plots whose number is
    a multiple of five times the number of pages. *)
Theorem plotter_layout (num_plots plots_per_page : Z) :
  (1 <= num_plots)%Z -> (1 <= plots_per_page)%Z ->
  exists l,
    plotter_init num_plots plots_per_page = Value l /\
    (1 <= pages l)%Z /\
    (capacity l <= num_plots)%Z /\
    (capacity l = num_plots <->
     ((num_plots < 5)%Z /\ (num_plots = 1%Z \/ plots_per_page = 1%Z)) \/
     ((5 <= num_plots)%Z /\ (num_plots mod (5 * pages l) = 0)%Z)).
Proof.
  intros HN HP. unfold plotter_init.
  destruct (Z.eqb_spec plots_per_page 0) as [E|_]; [lia|].
  pose proof (Z.div_pos num_plots plots_per_page ltac:(lia) ltac:(lia)) as Hq0.
  pose proof (Z.mul_div_le num_plots plots_per_page ltac:(lia)) as Hq1.
  set (q := (num_plots / plots_per_page)%Z) in *.
  set (p := if (q =? 0)%Z then 1%Z else q).
  assert (Hp1 : (1 <= p)%Z) by (subst p; destruct (Z.eqb_spec q 0); lia).
  assert (Hp2 : (p <= num_plots)%Z) by (subst p; destruct (Z.eqb_spec q 0); nia).
  destruct (Z.geb_spec num_plots 5) as [H5|H5].
  - eexists; split; [reflexivity|]. unfold capacity; cbn [pages cols rows].
    pose proof (Z.mul_div_le num_plots (5 * p) ltac:(lia)) as Hle.
    pose proof (Z.div_mod num_plots (5 * p) ltac:(lia)) as Hdm.
    pose proof (Z.mod_pos_bound num_plots (5 * p) ltac:(lia)) as Hmb.
    split; [exact Hp1|]. split; [nia|].
    split.
    + intros Hc. right. split; [lia|]. nia.
    + intros [[Hlt _]|[_ Hm]]; [lia|]. nia.
  - eexists; split; [reflexivity|]. unfold capacity; cbn [pages cols rows].
    split; [exact Hp1|]. split; [lia|].
    split.
    + intros Hc. left. split; [lia|].
      destruct (Z.eq_dec num_plots 1) as [E1|E1]; [now left|right].
      subst p. destruct (Z.eqb_spec q 0) as [Eq|Eq]; [lia|]. nia.
    + intros [[_ [E1|E1]]|[Hge _]]; [| |lia].
      * subst p. destruct (Z.eqb_spec q 0) as [Eq|Eq]; [lia|]. nia.
      * subst p q. rewrite E1, Z.div_1_r.
        destruct (Z.eqb_spec num_plots 0); lia.
Qed.

Lemma plotter_layout_witness :
  exists l,
    plotter_init 7 25 = Value l /\ (1 <= pages l)%Z /\ (capacity l <= 7)%Z.
Proof.
  destruct (plotter_layout 7 25 ltac:(lia) ltac:(lia)) as [l [E [Hp [Hc _]]]].
  exists l. repeat split; assumption.
Defined.

(** ** Indexing a sequence of any items *)

Lemma py_getitem_in_range {A : Type} (l : list A) (k : Z) :
  (- Z.of_nat (length l) <= k < Z.of_nat (length l))%Z ->
  exists v, py_getitem l k = Ok v /\ In v l.
Proof.
  intros H. unfold py_getitem. cbv zeta.
  set (pos := if (k <? 0)%Z then (k + Z.of_nat (length l))%Z else k).
  assert (Hpos : (0 <= pos < Z.of_nat (length l))%Z)
    by (subst pos; destruct (Z.ltb_spec k 0); lia).
  destruct (Z.leb_spec 0 pos); [|lia].
  destruct (Z.ltb_spec pos (Z.of_nat (length l))); [|lia].
  cbn [andb].
  destruct (nth_error l (Z.to_nat pos)) as [v|] eqn:E.
  - exists v. split; [reflexivity|]. eapply nth_error_In; eassumption.
  - apply nth_error_None in E. lia.
Qed.

Lemma py_getitem_out_of_range {A : Type} (l : list A) (k : Z) :
  (k < - Z.of_nat (length l) \/ Z.of_nat (length l) <= k)%Z ->
  py_getitem l k = Raise IndexError.
Proof.
  intros H. unfold py_getitem. cbv zeta.
  set (pos := if (k <? 0)%Z then (k + Z.of_nat (length l))%Z else k).
  assert (Hpos : (pos < 0 \/ Z.of_nat (length l) <= pos)%Z)
    by (subst pos; destruct (Z.ltb_spec k 0); lia).
  destruct (Z.leb_spec 0 pos); destruct (Z.ltb_spec pos (Z.of_nat (length l)));
    cbn [andb]; try reflexivity; lia.
Qed.

(** ** [fits_circle_radius] *)

(** On a square image of side [W >= 1] the call returns: the radius is half
    the number of pixels that are not nan in one row of the image, less 7,
    so it lies between -7 and [W // 2 - 7]. *)
Theorem fits_circle_radius_square (data : list (list pixel)) (W : nat) :
  (1 <= W)%nat -> length data = W -> Forall (fun row => length row = W) data ->
  exists (target_row : list pixel) (radius : Z),
    In target_row data /\
    fits_circle_radius data = Ok radius /\
    radius
    = ((Z.of_nat W - Z.of_nat (length (filter isnan target_row))) / 2 - 7)%Z /\
    (-7 <= radius <= Z.of_nat W / 2 - 7)%Z.
Proof.
  intros HW HL Hrows. rewrite Forall_forall in Hrows. unfold fits_circle_radius.
  destruct (py_getitem_in_range data 0 ltac:(lia)) as [row0 [E0 Hin0]].
  rewrite E0. cbn [bind]. rewrite (Hrows row0 Hin0).
  pose proof (Z.div_pos (Z.of_nat W) 2 ltac:(lia) ltac:(lia)) as Hh0.
  pose proof (Z.mul_div_le (Z.of_nat W) 2 ltac:(lia)) as Hh1.
  destruct (py_getitem_in_range data (Z.of_nat W / 2 - 1) ltac:(lia))
    as [target_row [Et Hint]].
  rewrite Et. cbn [bind].
  exists target_row. eexists. split; [exact Hint|]. split; [reflexivity|].
  split; [reflexivity|].
  pose proof (filter_length_le isnan target_row) as Hf.
  rewrite (Hrows target_row Hint) in Hf.
  set (c := Z.of_nat (length (filter isnan target_row))) in *.
  assert (0 <= (Z.of_nat W - c) / 2)%Z by (apply Z.div_pos; lia).
  assert ((Z.of_nat W - c) / 2 <= Z.of_nat W / 2)%Z
    by (apply Z.div_le_mono; lia).
  lia.
Qed.

Lemma fits_circle_radius_square_witness :
  exists (target_row : list pixel) (radius : Z),
    In target_row [[None; Some 1]; [Some 1; Some 1]] /\
    fits_circle_radius [[None; Some 1]; [Some 1; Some 1]] = Ok radius /\
    radius
    = ((Z.of_nat 2 - Z.of_nat (length (filter isnan target_row))) / 2 - 7)%Z /\
    (-7 <= radius <= Z.of_nat 2 / 2 - 7)%Z.
Proof.
  apply (fits_circle_radius_square [[None; Some 1]; [Some 1; Some 1]] 2).
  - lia.
  - reflexivity.
  - repeat constructor.
Defined.

(** An image with fewer rows than half the length of its first row cannot be
    indexed at the middle row. *)
Theorem fits_circle_radius_too_few_rows (data : list (list pixel)) (row0 : list pixel) :
  nth_error data 0 = Some row0 ->
  (Z.of_nat (length data) <= Z.of_nat (length row0) / 2 - 1)%Z ->
  fits_circle_radius data = Raise IndexError.
Proof.
  intros H0 Hshort. unfold fits_circle_radius.
  destruct (py_getitem_in_range data 0) as [r [E0 _]].
  { destruct data; [discriminate|]. cbn [length]. lia. }
  assert (r = row0).
  { unfold py_getitem in E0. cbv zeta in E0. cbn [Z.ltb Z.compare] in E0.
    destruct ((0 <=? 0)%Z && (0 <? Z.of_nat (length data))%Z); [|discriminate].
    change (Z.to_nat 0) with 0%nat in E0. rewrite H0 in E0. congruence. }
  subst r. rewrite E0. cbn [bind].
  rewrite py_getitem_out_of_range by lia. reflexivity.
Qed.

Lemma fits_circle_radius_too_few_rows_witness :
  fits_circle_radius [[None; None; None; None]] = Raise IndexError.
Proof.
  apply (fits_circle_radius_too_few_rows [[None; None; None; None]]
           [None; None; None; None]).
  - reflexivity.
  - cbn. lia.
Defined.

(** ** [get_eng_exponent] *)

Lemma dict_get_prefix_present (e : Z) :
  (e mod 3 = 0)%Z -> (-24 <= e <= 24)%Z ->
  exists symbol, dict_get prefix e = Value symbol /\ In (e, symbol) prefix.
Proof.
  intros Hm Hr.
  assert (H : (e = -24 \/ e = -21 \/ e = -18 \/ e = -15 \/ e = -12 \/ e = -9 \/
               e = -6 \/ e = -3 \/ e = 0 \/ e = 3 \/ e = 6 \/ e = 9 \/ e = 12 \/
               e = 15 \/ e = 18 \/ e = 21 \/ e = 24)%Z)
    by (Z.div_mod_to_equations; lia).
  repeat (destruct H as [->|H];
          [eexists; split; [reflexivity|cbn; tauto]|]).
  subst e. eexists; split; [reflexivity|cbn; tauto].
Qed.

Lemma dict_get_prefix_absent (e : Z) :
  (e < -24 \/ 24 < e)%Z -> dict_get prefix e = Throws KeyError.
Proof.
  intros H. unfold prefix. cbn [dict_get].
  repeat match goal with
         | |- context [(e =? ?k)%Z] => destruct (Z.eqb_spec e k); [lia|]
         end.
  reflexivity.
Qed.

(** The loop always leaves through its [return]: with the greatest multiple
    of 3 that is not above the exponent. *)
Lemma eng_loop_spec (exponent : Z) :
  eng_loop (py_range 0 3) exponent
  = match dict_get prefix (3 * (exponent / 3)) with
    | Value symbol => Value (Some ((3 * (exponent / 3))%Z, symbol))
    | Throws e => Throws e
    end.
Proof.
  change (py_range 0 3) with [0; 1; 2]%Z. cbn [eng_loop].
  destruct (Z.eqb_spec ((exponent - 0) mod 3) 0) as [H0|H0].
  { replace (exponent - 0)%Z with (3 * (exponent / 3))%Z
      by (Z.div_mod_to_equations; lia). reflexivity. }
  destruct (Z.eqb_spec ((exponent - 1) mod 3) 0) as [H1|H1].
  { replace (exponent - 1)%Z with (3 * (exponent / 3))%Z
      by (Z.div_mod_to_equations; lia). reflexivity. }
  destruct (Z.eqb_spec ((exponent - 2) mod 3) 0) as [H2|H2].
  { replace (exponent - 2)%Z with (3 * (exponent / 3))%Z
      by (Z.div_mod_to_equations; lia). reflexivity. }
  Z.div_mod_to_equations; lia.
Qed.

(** For a number other than 0, with [k] the floor of its decimal logarithm,
    the exponent found is the multiple of 3 with [e <= k <= e + 2]; it comes
    back with its prefix when it lies between -24 and 24, and the lookup
    raises [KeyError] otherwise. The function never ends without a
    [return]. *)
Theorem get_eng_exponent_spec (number : R) :
  number <> 0 ->
  let k := floor_log10 number in
  let e := (3 * (k / 3))%Z in
  (e mod 3 = 0)%Z /\ (e <= k <= e + 2)%Z /\
  ((-24 <= e <= 24)%Z ->
   exists symbol, get_eng_exponent number = Value (Some (e, symbol)) /\
                  In (e, symbol) prefix) /\
  ((e < -24 \/ 24 < e)%Z -> get_eng_exponent number = Throws KeyError) /\
  get_eng_exponent number <> Value None.
Proof.
  intros Hnz k e. unfold get_eng_exponent.
  destruct (Req_dec_T number 0) as [E|_]; [contradiction|].
  fold k. rewrite eng_loop_spec. fold e.
  assert (Hm : (e mod 3 = 0)%Z) by (subst e; Z.div_mod_to_equations; lia).
  assert (Hk : (e <= k <= e + 2)%Z) by (subst e; Z.div_mod_to_equations; lia).
  split; [exact Hm|]. split; [exact Hk|]. split; [|split].
  - intros Hr. destruct (dict_get_prefix_present e Hm Hr) as [symbol [E Hin]].
    exists symbol. rewrite E. split; [reflexivity|exact Hin].
  - intros Hr. now rewrite dict_get_prefix_absent.
  - destruct (dict_get prefix e); discriminate.
Qed.

Lemma get_eng_exponent_spec_witness :
  ((3 * (floor_log10 5 / 3)) mod 3 = 0)%Z.
Proof.
  apply (get_eng_exponent_spec 5). lra.
Defined.

Lemma exp_le_mono (x y : R) : x <= y -> exp x <= exp y.
Proof.
  intros [H | ->]; [left; now apply exp_increasing|right; reflexivity].
Qed.

Lemma ln_10_pos : 0 < ln 10.
Proof. rewrite <- ln_1. apply ln_increasing; lra. Qed.

Lemma powerRZ_10_mono (a b : Z) : (a <= b)%Z -> powerRZ 10 a <= powerRZ 10 b.
Proof.
  intros H. rewrite !powerRZ_Rpower by lra. unfold Rpower.
  apply exp_le_mono. apply IZR_le in H. pose proof ln_10_pos. nra.
Qed.

(** The floor of the decimal logarithm brackets the number between two
    powers of ten. *)
Lemma floor_log10_bounds (number : R) :
  number <> 0 ->
  powerRZ 10 (floor_log10 number) <= Rabs number
  < powerRZ 10 (floor_log10 number + 1).
Proof.
  intros Hnz. unfold floor_log10.
  set (L := ln (Rabs number) / ln 10).
  destruct (base_Int_part L) as [H1 H2].
  pose proof ln_10_pos as Hln.
  assert (Habs : 0 < Rabs number) by (now apply Rabs_pos_lt).
  assert (HL : L * ln 10 = ln (Rabs number)) by (unfold L; field; lra).
  assert (Hx : exp (L * ln 10) = Rabs number) by (rewrite HL; now apply exp_ln).
  rewrite !powerRZ_Rpower by lra. unfold Rpower.
  rewrite plus_IZR. split.
  - apply Rle_trans with (exp (L * ln 10)); [|right; exact Hx].
    apply exp_le_mono. nra.
  - apply Rle_lt_trans with (exp (L * ln 10)); [right; symmetry; exact Hx|].
    apply exp_increasing. nra.
Qed.

(** Dividing by ten to the exponent found, as [zfind] does with [CRVAL3],
    leaves a value whose magnitude is at least 1 and below 1000. *)
Theorem get_eng_exponent_scales (number : R) (e : Z) (symbol : string) :
  number <> 0 ->
  get_eng_exponent number = Value (Some (e, symbol)) ->
  1 <= Rabs (number / powerRZ 10 e) < 1000.
Proof.
  intros Hnz H.
  set (k := floor_log10 number).
  assert (He : e = (3 * (k / 3))%Z).
  { unfold get_eng_exponent in H.
    destruct (Req_dec_T number 0) as [E|_]; [contradiction|].
    fold k in H. rewrite eng_loop_spec in H.
    destruct (dict_get prefix (3 * (k / 3))); [|discriminate]. congruence. }
  assert (Hk : (e <= k <= e + 2)%Z) by (subst e; Z.div_mod_to_equations; lia).
  destruct (floor_log10_bounds number Hnz) as [Hlow Hhigh]. fold k in Hlow, Hhigh.
  assert (Hpe : 0 < powerRZ 10 e) by (apply powerRZ_lt; lra).
  assert (H1 : powerRZ 10 e <= powerRZ 10 k).
  { apply powerRZ_10_mono; lia. }
  assert (H2 : powerRZ 10 (k + 1) <= powerRZ 10 e * 1000).
  { assert (E3 : powerRZ 10 3 = 1000) by (unfold powerRZ; simpl; lra).
    rewrite <- E3, <- powerRZ_add by lra. apply powerRZ_10_mono; lia. }
  unfold Rdiv. rewrite Rabs_mult, Rabs_inv, (Rabs_right (powerRZ 10 e)) by lra.
  split.
  - apply Rmult_le_reg_r with (powerRZ 10 e); [exact Hpe|].
    rewrite Rmult_assoc, Rinv_l by lra. lra.
  - apply Rmult_lt_reg_r with (powerRZ 10 e); [exact Hpe|].
    rewrite Rmult_assoc, Rinv_l by lra. lra.
Qed.

Lemma floor_log10_one : floor_log10 1 = 0%Z.
Proof.
  unfold floor_log10. rewrite Rabs_R1, ln_1.
  replace (0 / ln 10) with 0 by (unfold Rdiv; ring).
  symmetry. apply Int_part_spec. lra.
Qed.

Lemma get_eng_exponent_scales_witness :
  1 <= Rabs (1 / powerRZ 10 0) < 1000.
Proof.
  apply (get_eng_exponent_scales 1 0 ""%string).
  - lra.
  - unfold get_eng_exponent. destruct (Req_dec_T 1 0) as [E|_]; [lra|].
    rewrite floor_log10_one. reflexivity.
Defined.

(** ** The frequency axis *)

Lemma nth_np_linspace (start stop : R) (num i : nat) :
  (2 <= num)%nat -> (i < num)%nat ->
  nth i (np_linspace start stop num) 0
  = start + INR i * ((stop - start) / INR (num - 1)).
Proof.
  intros Hn Hi. destruct num as [|[|n]]; try lia. unfold np_linspace.
  set (f := fun i : nat => start + INR i * ((stop - start) / INR (S (S n) - 1))).
  rewrite (nth_indep _ 0 (f 0%nat)) by (rewrite length_map, length_seq; lia).
  rewrite map_nth. rewrite seq_nth by lia. reflexivity.
Qed.

(** With at least two channels the axis has one value per channel and starts
    at the scaled reference frequency, but it ends one increment past the
    last channel: neighbouring values are [len / (len - 1)] increments
    apart, not one increment. *)
Theorem frequency_axis_spacing (crval3 cdelt3 : R) (exponent : Z) (freq_len : nat) :
  (2 <= freq_len)%nat ->
  let freq_start := crval3 / powerRZ 10 exponent in
  let freq_incr := cdelt3 / powerRZ 10 exponent in
  let axis := frequency_axis crval3 cdelt3 exponent freq_len in
  length axis = freq_len /\
  nth 0 axis 0 = freq_start /\
  nth (freq_len - 1) axis 0 = freq_start + INR freq_len * freq_incr /\
  forall i : nat, (S i < freq_len)%nat ->
    nth (S i) axis 0 - nth i axis 0
    = freq_incr * (INR freq_len / INR (freq_len - 1)).
Proof.
  intros Hn freq_start freq_incr axis. subst axis. unfold frequency_axis.
  fold freq_start freq_incr.
  assert (Hd : INR (freq_len - 1) <> 0) by (apply not_0_INR; lia).
  split; [|split; [|split]].
  - destruct freq_len as [|[|n]]; try lia. unfold np_linspace.
    now rewrite length_map, length_seq.
  - rewrite nth_np_linspace by lia. cbn [INR]. lra.
  - rewrite nth_np_linspace by lia. field. exact Hd.
  - intros i Hi. rewrite !nth_np_linspace by lia. rewrite S_INR. field. exact Hd.
Qed.

Lemma frequency_axis_spacing_witness :
  length (frequency_axis 100 2 0 3) = 3%nat.
Proof.
  apply (frequency_axis_spacing 100 2 0 3). lia.
Defined.

(** ** [gaussf]: values *)

Lemma lobe_range (a s x0 : R) (i : Z) (x : R) :
  0 <= a -> 0 <= lobe a s x0 i x <= a.
Proof.
  intros Ha. unfold lobe.
  set (t := ((x - IZR i * x0) / s) ^ 2).
  assert (Ht : 0 <= t) by (subst t; apply pow2_ge_0).
  pose proof (exp_pos (- t)) as Hp.
  assert (He : exp (- t) <= 1) by (rewrite <- exp_0; apply exp_le_mono; lra).
  split; nra.
Qed.

Lemma lobe_sum_range (a s x0 : R) (k : nat) (x : R) :
  0 <= a -> 0 <= lobe_sum a s x0 k x <= INR k * a.
Proof.
  intros Ha. induction k as [|k IH].
  - cbn [lobe_sum INR]. lra.
  - cbn [lobe_sum]. rewrite S_INR.
    pose proof (lobe_range a s x0 (Z.of_nat (S k)) x Ha) as Hl.
    unfold lobe in Hl. lra.
Qed.

Lemma lobe_sum_zero_amplitude (s x0 : R) (k : nat) (x : R) :
  lobe_sum 0 s x0 k x = 0.
Proof.
  induction k as [|k IH]; cbn [lobe_sum]; [reflexivity|].
  rewrite IH. unfold lobe. ring.
Qed.

Lemma gaussf_broadcast (x : list R) (a s x0 : R) (n : Z) :
  nd_broadcast (gaussf x a s x0 n) (length x)
  = map (lobe_sum a s x0 (Z.to_nat (n - 1))) x.
Proof.
  unfold gaussf, py_range. rewrite gaussf_rounds.
  destruct (Z.to_nat (n - 1)) as [|k]; cbn [nd_broadcast]; [|reflexivity].
  cbn [lobe_sum]. induction x as [|h t IH]; cbn; [reflexivity|now rewrite IH].
Qed.

(** With amplitude 0 the template is 0 at every abscissa. *)
Theorem gaussf_zero_amplitude (x : list R) (s x0 : R) (n : Z) :
  nd_broadcast (gaussf x 0 s x0 n) (length x) = repeat 0 (length x).
Proof.
  rewrite gaussf_broadcast.
  induction x as [|h t IH]; cbn [map length repeat]; [reflexivity|].
  now rewrite IH, lobe_sum_zero_amplitude.
Qed.

(** For an amplitude that is not negative, the template has one value per
    abscissa, and each value lies between 0 and the amplitude times the number
    of lobes. *)
Theorem gaussf_range (x : list R) (a s x0 : R) (n : Z) :
  0 <= a ->
  length (nd_broadcast (gaussf x a s x0 n) (length x)) = length x /\
  forall v, In v (nd_broadcast (gaussf x a s x0 n) (length x)) ->
            0 <= v <= IZR (Z.max 0 (n - 1)) * a.
Proof.
  intros Ha. rewrite gaussf_broadcast. split; [apply length_map|].
  intros v Hv. apply in_map_iff in Hv. destruct Hv as [xv [<- _]].
  pose proof (lobe_sum_range a s x0 (Z.to_nat (n - 1)) xv Ha) as H.
  rewrite INR_IZR_INZ in H.
  replace (Z.of_nat (Z.to_nat (n - 1))) with (Z.max 0 (n - 1)) in H by lia.
  exact H.
Qed.

Lemma gaussf_range_witness :
  length (nd_broadcast (gaussf [1; 2] 3 1 1 4) (length [1; 2])) = length [1; 2].
Proof.
  apply (gaussf_range [1; 2] 3 1 1 4). lra.
Defined.

(** ** The peak distance *)

Lemma fold_left_Zadd_nonneg (l : list Z) (acc : Z) :
  Forall (fun v => (0 <= v)%Z) l -> (0 <= acc)%Z ->
  (acc <= fold_left Z.add l acc)%Z.
Proof.
  revert acc; induction l as [|h t IH]; intros acc Hl Hacc; cbn [fold_left]; [lia|].
  inversion Hl; subst. specialize (IH (acc + h)%Z H2 ltac:(lia)). lia.
Qed.

Lemma fold_left_Zadd_zero (l : list Z) :
  Forall (fun v => v = 0%Z) l -> fold_left Z.add l 0%Z = 0%Z.
Proof.
  induction l as [|h t IH]; intros Hl; cbn [fold_left]; [reflexivity|].
  inversion Hl; subst. cbn. now apply IH.
Qed.

(** The total peak distance is never negative, and it is 0 when the detected
    and the expected peak channels are the same. *)
Theorem peak_distance_of_range (spec_peaks exp_peak : list Z) :
  (0 <= peak_distance_of spec_peaks exp_peak)%Z /\
  peak_distance_of spec_peaks spec_peaks = 0%Z.
Proof.
  unfold peak_distance_of, py_sum_int. split.
  - apply fold_left_Zadd_nonneg; [|lia].
    apply Forall_forall. intros v Hv. apply in_map_iff in Hv.
    destruct Hv as [p [<- _]]. lia.
  - apply fold_left_Zadd_zero. apply Forall_forall. intros v Hv.
    apply in_map_iff in Hv. destruct Hv as [[p q] [<- Hin]].
    cbn [fst snd]. clear -Hin.
    assert (p = q); [|lia].
    induction spec_peaks as [|h t IH]; cbn in Hin; [contradiction|].
    destruct Hin as [E|Hin]; [congruence|auto].
Qed.

(** ** [spaced_circle_points]: where the points lie *)

Lemma euclidean_self (p : point) : euclidean p p = 0.
Proof.
  unfold euclidean.
  replace ((fst p - fst p) ^ 2 + (snd p - snd p) ^ 2) with 0 by ring.
  apply sqrt_0.
Qed.

Lemma place_point_candidate (fuel : nat) (rnd : nat -> R) (k : nat) (cr : R)
    (c : point) (D : R) (points points' : list point) (k' : nat) :
  place_point fuel rnd k cr c D points = Done (points', k') ->
  exists j, points' = points ++ [candidate_point rnd j cr c].
Proof.
  revert k; induction fuel as [|fuel IH]; intros k H; [discriminate|].
  cbn [place_point] in H.
  destruct (py_min (map (euclidean (candidate_point rnd k cr c)) points))
    as [m|e]; [|discriminate].
  destruct (accepted m D points).
  - injection H as <- _. now exists k.
  - now apply IH in H.
Qed.

Lemma place_points_within (iters fuel : nat) (rnd : nat -> R) (k : nat) (cr : R)
    (c : point) (D : R) (points out : list point) :
  (forall i, 0 <= rnd i < 1) -> 0 <= cr ->
  Forall (fun p => euclidean p c <= cr) points ->
  place_points iters fuel rnd k cr c D points = Done out ->
  Forall (fun p => euclidean p c <= cr) out.
Proof.
  intros Hrnd Hcr. revert k points; induction iters as [|iters IH];
    intros k points Hin H.
  - now injection H as <-.
  - cbn [place_points] in H.
    destruct (place_point fuel rnd k cr c D points) as [[points' k']| |] eqn:E;
      try discriminate.
    destruct (place_point_candidate _ _ _ _ _ _ _ _ _ E) as [j ->].
    apply IH in H; [exact H|].
    apply Forall_app. split; [exact Hin|]. constructor; [|constructor].
    rewrite candidate_to_centre. pose proof (Hrnd (S j)).
    rewrite Rabs_right by nra. nra.
Qed.

(** For a radius that is not negative, every returned point lies within the
    circle: at most the radius away from the centre. *)
Theorem spaced_circle_points_within_circle (fuel : nat) (rnd : nat -> R)
    (num_points : Z) (cr : R) (c : point) (D : R) (pts : list point) :
  (forall i, 0 <= rnd i < 1) -> 0 <= cr ->
  spaced_circle_points fuel rnd num_points cr c D = Done pts ->
  Forall (fun p => euclidean p c <= cr) pts.
Proof.
  intros Hrnd Hcr H. unfold spaced_circle_points in H.
  apply (place_points_within _ _ _ _ _ _ _ _ _ Hrnd Hcr) in H; [exact H|].
  constructor; [|constructor]. rewrite euclidean_self. exact Hcr.
Qed.

Lemma spaced_circle_points_within_circle_witness :
  Forall (fun p => euclidean p (1, 1) <= 5)
    [(1, 1); candidate_point (fun _ => 0) 0 5 (1, 1)].
Proof.
  apply (spaced_circle_points_within_circle 1 (fun _ => 0) 2 5 (1, 1) 3).
  - intros _; lra.
  - lra.
  - unfold spaced_circle_points. change (Z.to_nat (2 - 1)) with 1%nat.
    cbn [place_points]. rewrite place_point_second. reflexivity.
Defined.

(** Asked for one point or fewer, also for none or a negative number, the
    sampler draws nothing and returns the centre alone. *)
Theorem spaced_circle_points_centre_only (fuel : nat) (rnd : nat -> R)
    (num_points : Z) (cr : R) (c : point) (D : R) :
  (num_points <= 1)%Z ->
  spaced_circle_points fuel rnd num_points cr c D = Done [c].
Proof.
  intros H. unfold spaced_circle_points.
  replace (Z.to_nat (num_points - 1)) with 0%nat by lia. reflexivity.
Qed.

Lemma spaced_circle_points_centre_only_witness :
  spaced_circle_points 0 (fun _ => 0) 0 5 (1, 1) 3 = Done [(1, 1)].
Proof.
  apply (spaced_circle_points_centre_only 0 (fun _ => 0) 0 5 (1, 1) 3). lia.
Defined.

(** ** [np.argmin] *)

Lemma argmin_from_spec (l pre : list R) (best : R) (besti : nat) :
  (besti < length pre)%nat -> nth besti pre 0 = best ->
  (forall j, (j < length pre)%nat -> best <= nth j pre 0) ->
  (forall j, (j < besti)%nat -> best < nth j pre 0) ->
  let r := argmin_from l (length pre) best besti in
  (r < length (pre ++ l))%nat /\
  (forall j, (j < length (pre ++ l))%nat ->
             nth r (pre ++ l) 0 <= nth j (pre ++ l) 0) /\
  (forall j, (j < r)%nat -> nth r (pre ++ l) 0 < nth j (pre ++ l) 0).
Proof.
  revert pre best besti; induction l as [|v tl IH]; intros pre best besti Hi Hb Hle Hlt.
  - cbn [argmin_from]. rewrite app_nil_r. rewrite Hb. repeat split; auto.
  - cbn [argmin_from].
    replace (pre ++ v :: tl) with ((pre ++ [v]) ++ tl)
      by (rewrite <- app_assoc; reflexivity).
    replace (S (length pre)) with (length (pre ++ [v]))
      by (rewrite length_app; cbn [length]; lia).
    assert (Hnth : forall j, (j < length pre)%nat ->
                             nth j (pre ++ [v]) 0 = nth j pre 0)
      by (intros j Hj; now apply app_nth1).
    destruct (Rlt_dec v best) as [Hv|Hv].
    + apply IH.
      * rewrite length_app; cbn [length]; lia.
      * apply nth_middle.
      * intros j Hj. rewrite length_app in Hj; cbn [length] in Hj.
        destruct (Nat.eq_dec j (length pre)) as [->|Hne].
        -- rewrite nth_middle. lra.
        -- rewrite Hnth by lia. specialize (Hle j ltac:(lia)). lra.
      * intros j Hj. rewrite Hnth by lia. specialize (Hle j Hj). lra.
    + apply IH.
      * rewrite length_app; cbn [length]; lia.
      * rewrite Hnth by lia. exact Hb.
      * intros j Hj. rewrite length_app in Hj; cbn [length] in Hj.
        destruct (Nat.eq_dec j (length pre)) as [->|Hne].
        -- rewrite nth_middle. lra.
        -- rewrite Hnth by lia. apply Hle. lia.
      * intros j Hj. rewrite Hnth by lia. now apply Hlt.
Qed.

Lemma np_argmin_spec (l : list R) (i : nat) :
  np_argmin l = Ok i ->
  (i < length l)%nat /\
  (forall j, (j < length l)%nat -> nth i l 0 <= nth j l 0) /\
  (forall j, (j < i)%nat -> nth i l 0 < nth j l 0).
Proof.
  destruct l as [|x xs]; [discriminate|]. intros H. injection H as <-.
  apply (argmin_from_spec xs [x] x 0).
  - cbn; lia.
  - reflexivity.
  - intros j Hj. cbn in Hj. replace j with 0%nat by lia. cbn. lra.
  - intros j Hj. lia.
Qed.

(** ** The scan of one point and the run over all points *)

Lemma plot_colour_not_black (m r : R) : plot_colour m r <> black.
Proof.
  unfold plot_colour. destruct (Rle_dec m r); [discriminate|].
  destruct (Rgt_dec m r); destruct (Rle_dec m (1.05 * r)); cbn [andb]; discriminate.
Qed.

Section ZfindMore.

Variable curve_fit :
  (list R -> R -> R -> ndarray) -> list R -> list R -> (R * R) * (R * R) -> option (R * R).
Variable argsort : ndarray -> list Z.
Variable fits_flux : point -> list R * list R.
Variable channel_peaks : list R -> list Z.
Variable ftransition : R.
Variable x_axis_flux : list R.
Variable num_gaussians : Z.
Variable z : list R.

Local Abbreviation fit := (try_fit curve_fit ftransition x_axis_flux num_gaussians).
Local Abbreviation params_of :=
  (fit_params curve_fit ftransition x_axis_flux num_gaussians).
Local Abbreviation chi2_at :=
  (recorded_chi2 curve_fit argsort ftransition x_axis_flux num_gaussians).
Local Abbreviation candidate :=
  (zfind_candidate curve_fit argsort ftransition x_axis_flux num_gaussians).
Local Abbreviation search :=
  (grid_search curve_fit argsort ftransition x_axis_flux num_gaussians).
Local Abbreviation process :=
  (zfind_point curve_fit argsort fits_flux channel_peaks ftransition x_axis_flux
     num_gaussians z).
Local Abbreviation scan :=
  (zfind_points curve_fit argsort fits_flux channel_peaks ftransition x_axis_flux
     num_gaussians z).

Lemma fit_needs_flux (y_flux : list R) (ddz : R) (r : option (R * R)) :
  fit y_flux ddz = Ok r -> exists ymax, py_max y_flux = Ok ymax.
Proof using Type.
  unfold try_fit. destruct (py_max y_flux) as [ymax|e]; [|discriminate].
  intros _. now exists ymax.
Qed.

Lemma fit_defined (y_flux : list R) (ddz : R) (ymax : R) :
  py_max y_flux = Ok ymax -> exists r, fit y_flux ddz = Ok r.
Proof using Type.
  intros H. unfold try_fit. rewrite H. cbn [bind]. now eexists.
Qed.

(** Once one chi-squared is recorded, no later candidate stops the scan. *)
Lemma search_continues (y_flux uncert : list R) (spec_peaks : list Z)
    (st : fit_arrays) (zs : list R) (ymax : R) :
  py_max y_flux = Ok ymax -> chi2_array st <> [] ->
  exists st', search y_flux uncert spec_peaks st zs = Ok st'.
Proof using Type.
  intros Hy. revert st; induction zs as [|ddz zs IH]; intros st Hne.
  - now exists st.
  - cbn [grid_search].
    destruct (fit_defined y_flux ddz ymax Hy) as [[params|] E].
    + rewrite (candidate_converged _ _ _ _ _ _ _ _ _ _ _ E). cbn [bind].
      apply IH. cbn [chi2_array]. destruct (chi2_array st); discriminate.
    + rewrite (candidate_failed _ _ _ _ _ _ _ _ _ _ E).
      destruct (py_max_spec (chi2_array st) Hne) as [m [Em _]].
      rewrite Em. cbn [bind]. apply IH. cbn [chi2_array].
      destruct (chi2_array st); discriminate.
Qed.

(** When the fit of the first candidate converges the scan of the grid never
    raises, whatever the later fits do: it ends with one chi-squared per
    candidate, none of them negative, and at most one parameter pair per
    candidate. *)
Theorem grid_search_total (y_flux uncert : list R) (spec_peaks : list Z)
    (z0 : R) (zs : list R) (params : R * R) :
  try_fit curve_fit ftransition x_axis_flux num_gaussians y_flux z0
    = Ok (Some params) ->
  exists st,
    grid_search curve_fit argsort ftransition x_axis_flux num_gaussians
      y_flux uncert spec_peaks (mk_fit_arrays [] []) (z0 :: zs) = Ok st /\
    length (chi2_array st) = length (z0 :: zs) /\
    (length (param_array st) <= length (z0 :: zs))%nat /\
    Forall (fun c => 0 <= c) (chi2_array st).
Proof using Type.
  intros Hfit. destruct (fit_needs_flux _ _ _ Hfit) as [ymax Hy].
  assert (E : exists st,
             search y_flux uncert spec_peaks (mk_fit_arrays [] []) (z0 :: zs) = Ok st).
  { cbn [grid_search]. rewrite (candidate_converged _ _ _ _ _ _ _ _ _ _ _ Hfit).
    cbn [bind]. eapply search_continues; [exact Hy|]. cbn [chi2_array app].
    discriminate. }
  destruct E as [st E]. exists st. split; [exact E|].
  destruct (search_steps _ _ _ _ _ _ _ _ _ _ _ E) as [H1 [H2 H3]].
  cbn [chi2_array param_array length] in H1, H2.
  split; [cbn [length]; lia|]. split; [cbn [length]; lia|].
  apply H3. constructor.
Qed.

(** A scan in which every fit converges, from any state. *)
Lemma search_all_converged (y_flux uncert : list R) (spec_peaks : list Z)
    (st : fit_arrays) (zs : list R) :
  (forall ddz, In ddz zs -> exists params, fit y_flux ddz = Ok (Some params)) ->
  search y_flux uncert spec_peaks st zs
  = Ok (mk_fit_arrays
          (chi2_array st ++ map (chi2_at y_flux uncert spec_peaks) zs)
          (param_array st ++ map (params_of y_flux) zs)).
Proof using Type.
  revert st; induction zs as [|ddz zs IH]; intros st H.
  - cbn [grid_search map]. rewrite !app_nil_r. now destruct st.
  - cbn [grid_search map].
    destruct (H ddz (or_introl eq_refl)) as [params E].
    rewrite (candidate_converged _ _ _ _ _ _ _ _ _ _ _ E). cbn [bind].
    rewrite IH by (intros d Hd; apply H; now right).
    cbn [chi2_array param_array]. rewrite <- !app_assoc. cbn [app].
    unfold recorded_chi2, fit_params. rewrite E. reflexivity.
Qed.

(** When every fit converges, the scan records for each candidate, in grid
    order, its own fitted parameters and its own penalised chi-squared: entry
    [i] of both sequences belongs to grid value [i]. *)
Theorem grid_search_aligned (y_flux uncert : list R) (spec_peaks : list Z)
    (zs : list R) :
  (forall ddz, In ddz zs ->
     exists params,
       try_fit curve_fit ftransition x_axis_flux num_gaussians y_flux ddz
       = Ok (Some params)) ->
  grid_search curve_fit argsort ftransition x_axis_flux num_gaussians
    y_flux uncert spec_peaks (mk_fit_arrays [] []) zs
  = Ok (mk_fit_arrays (map (chi2_at y_flux uncert spec_peaks) zs)
          (map (params_of y_flux) zs)) /\
  forall ddz, In ddz zs ->
    try_fit curve_fit ftransition x_axis_flux num_gaussians y_flux ddz
    = Ok (Some (params_of y_flux ddz)).
Proof using Type.
  intros H. split.
  - now rewrite search_all_converged.
  - intros ddz Hin. destruct (H ddz Hin) as [params E].
    unfold fit_params. now rewrite E.
Qed.

(** What one pass of the loop over the points appends. *)
Lemma process_record (index : nat) (st st' : finder) (coord : point) :
  process index st coord = Ok st' ->
  exists (y_flux chi2s : list R) (params : list (R * R)) (col : colour) (i : nat),
    plot_colours st' = plot_colours st ++ [col] /\
    all_flux st' = all_flux st ++ [y_flux] /\
    all_chi2 st' = all_chi2 st ++ [chi2s] /\
    all_params st' = all_params st ++ [params] /\
    all_lowest_z st' = all_lowest_z st ++ [nth i z 0] /\
    length chi2s = length z /\
    (length params <= length z)%nat /\
    np_argmin chi2s = Ok i /\
    (index = 0%nat -> col = black) /\
    (index <> 0%nat -> col <> black).
Proof using Type.
  unfold zfind_point. destruct (fits_flux coord) as [y_flux0 uncert0].
  destruct (average_zeroes uncert0) as [uncert1|e d]; [|discriminate].
  set (y_flux := map (fun v => v * 1000) y_flux0).
  set (uncert := map (fun v => v * 1000) uncert1).
  set (peaks := np_sort (channel_peaks y_flux)).
  destruct (search y_flux uncert peaks (mk_fit_arrays [] []) z) as [arrays|e] eqn:Es;
    [|discriminate].
  cbn [bind].
  destruct (py_min (chi2_array arrays)) as [m|e] eqn:Em; [|discriminate].
  cbn [bind].
  destruct (search_steps _ _ _ _ _ _ _ _ _ _ _ Es) as [HL [HP _]].
  cbn [chi2_array param_array length] in HL, HP.
  assert (Hcol : (exists ct : colour * R,
             (if (index =? 0)%nat then Ok (black, m)
              else match target_chi2 st with
                   | Some t => Ok (plot_colour m t, t)
                   | None => Raise NameError
                   end) = Ok ct /\
             (index = 0%nat -> fst ct = black) /\
             (index <> 0%nat -> fst ct <> black)) \/
           (if (index =? 0)%nat then Ok (black, m)
            else match target_chi2 st with
                 | Some t => Ok (plot_colour m t, t)
                 | None => Raise NameError
                 end) = Raise NameError).
  { destruct (Nat.eqb_spec index 0) as [Hi|Hi].
    - left. eexists; split; [reflexivity|]. cbn [fst]. split; [auto|contradiction].
    - destruct (target_chi2 st) as [t|]; [left|now right].
      eexists; split; [reflexivity|]. cbn [fst]. split; [contradiction|].
      intros _. apply plot_colour_not_black. }
  destruct Hcol as [[ct [Ect [Hc0 Hc1]]]|Ect]; rewrite Ect; [|discriminate].
  cbn [bind].
  destruct (np_argmin (chi2_array arrays)) as [li|e] eqn:Ea; [|discriminate].
  cbn [bind].
  destruct (np_argmin_spec _ _ Ea) as [Hli _].
  rewrite py_index_in_range by lia. cbn [bind].
  intros H. injection H as <-.
  exists y_flux, (chi2_array arrays), (param_array arrays), (fst ct), li.
  cbn. repeat split; auto; lia.
Qed.

(** For every point that is processed, the redshift recorded as the best one
    is the grid value at the first position where the chi-squared sequence of
    the point is smallest. *)
Theorem lowest_redshift_is_first_minimum (index : nat) (st st' : finder)
    (coord : point) :
  process index st coord = Ok st' ->
  exists (chi2s : list R) (i : nat),
    all_chi2 st' = all_chi2 st ++ [chi2s] /\
    all_lowest_z st' = all_lowest_z st ++ [nth i z 0] /\
    length chi2s = length z /\
    (i < length z)%nat /\
    (forall j, (j < length z)%nat -> nth i chi2s 0 <= nth j chi2s 0) /\
    (forall j, (j < i)%nat -> nth i chi2s 0 < nth j chi2s 0).
Proof using Type.
  intros H.
  destruct (process_record _ _ _ _ H)
    as [y [chi2s [params [col [i [_ [_ [Hc [_ [Hz [HL [_ [Ha _]]]]]]]]]]]]].
  destruct (np_argmin_spec _ _ Ha) as [Hi [Hmin Hfirst]].
  exists chi2s, i. rewrite <- HL. repeat split; auto.
Qed.

Lemma process_aligned (index : nat) (st st' : finder) (coord : point) :
  process index st coord = Ok st' ->
  aligned index (length z) st -> aligned (S index) (length z) st'.
Proof using Type.
  intros H [Hc [Hf [Ha [Hp [Hl [Hchi [Hpar [Hb Hnb]]]]]]]].
  destruct (process_record _ _ _ _ H)
    as [y [chi2s [params [col [i [Ec [Ef [Ea [Ep [El [HL [HP [_ [H0 Hn0]]]]]]]]]]]]]].
  unfold aligned. rewrite Ec, Ef, Ea, Ep, El, !length_app. cbn [length].
  repeat split; try lia.
  - apply Forall_app. split; [exact Hchi|]. now repeat constructor.
  - apply Forall_app. split; [exact Hpar|]. now repeat constructor.
  - intros _. destruct (Nat.eq_dec index 0) as [E0|E0].
    + destruct (plot_colours st); [|cbn in Hc; lia]. cbn. now apply H0.
    + rewrite app_nth1 by lia. now apply Hb.
  - intros j Hj. destruct (Nat.eq_dec j index) as [->|Hne].
    + rewrite <- Hc at 1. rewrite nth_middle. apply Hn0. lia.
    + rewrite app_nth1 by lia. apply Hnb. lia.
Qed.

Lemma scan_aligned (index : nat) (st st' : finder) (coordinates : list point) :
  scan index st coordinates = Ok st' ->
  aligned index (length z) st ->
  aligned (index + length coordinates) (length z) st'.
Proof using Type.
  revert index st; induction coordinates as [|coord rest IH]; intros index st H Hal.
  - injection H as <-. now rewrite Nat.add_0_r.
  - cbn [zfind_points] in H.
    destruct (process index st coord) as [st1|e] eqn:E; [|discriminate].
    cbn [bind] in H. apply IH in H.
    + cbn [length]. now rewrite Nat.add_succ_r.
    + now apply process_aligned in E.
Qed.

Lemma new_finder_aligned (zlen : nat) : aligned 0 zlen new_finder.
Proof.
  unfold aligned, new_finder; cbn. repeat split; try constructor; try lia; congruence.
Qed.

(** After a run over the points, the five lists of results have one entry
    per point each, every chi-squared sequence has one entry per grid value
    and no parameter sequence has more. *)
Theorem zfind_points_aligned (coordinates : list point) (st : finder) :
  scan 0 new_finder coordinates = Ok st ->
  length (plot_colours st) = length coordinates /\
  length (all_flux st) = length coordinates /\
  length (all_chi2 st) = length coordinates /\
  length (all_params st) = length coordinates /\
  length (all_lowest_z st) = length coordinates /\
  Forall (fun chi2s => length chi2s = length z) (all_chi2 st) /\
  Forall (fun params => (length params <= length z)%nat) (all_params st).
Proof using Type.
  intros H. apply scan_aligned in H; [|apply new_finder_aligned].
  cbn [Nat.add] in H. destruct H as [H1 [H2 [H3 [H4 [H5 [H6 [H7 _]]]]]]].
  repeat split; assumption.
Qed.

(** After a run over the points, the first point is black and no other point
    is. *)
Theorem zfind_points_colours (coordinates : list point) (st : finder) :
  scan 0 new_finder coordinates = Ok st ->
  coordinates <> [] ->
  nth 0 (plot_colours st) red = black /\
  forall i : nat, (0 < i < length coordinates)%nat ->
                  nth i (plot_colours st) black <> black.
Proof using Type.
  intros H Hne. apply scan_aligned in H; [|apply new_finder_aligned].
  cbn [Nat.add] in H. destruct H as [_ [_ [_ [_ [_ [_ [_ [Hb Hnb]]]]]]]].
  split; [|exact Hnb]. apply Hb. destruct coordinates; [congruence|discriminate].
Qed.

(** A point stops the run with [ValueError] when the grid is empty, when its
    flux sequence is empty, or when the fit of the first grid value fails. *)
Theorem zfind_point_value_error (index : nat) (st : finder) (coord : point)
    (y_flux0 uncert0 uncert1 : list R) :
  fits_flux coord = (y_flux0, uncert0) ->
  average_zeroes uncert0 = Returned uncert1 ->
  z = [] \/ y_flux0 = [] \/
  (exists z0 rest, z = z0 :: rest /\
                   fit (map (fun v => v * 1000) y_flux0) z0 = Ok None) ->
  process index st coord = Raise ValueError.
Proof using Type.
  intros Hf Haz Hcase. unfold zfind_point. rewrite Hf, Haz.
  destruct Hcase as [Hz|[Hy|[z0 [rest [Hz Hfit]]]]].
  - rewrite Hz. reflexivity.
  - rewrite Hy. destruct z as [|z0 rest]; reflexivity.
  - rewrite Hz. cbn [grid_search].
    rewrite (candidate_failed _ _ _ _ _ _ _ _ _ _ Hfit). reflexivity.
Qed.

(** A point whose last uncertainty is zero stops the run with the
    [IndexError] of [average_zeroes]. *)
Theorem zfind_point_index_error (index : nat) (st : finder) (coord : point)
    (y_flux0 uncert0 : list R) :
  fits_flux coord = (y_flux0, uncert0) ->
  (1 <= length uncert0)%nat ->
  nth (length uncert0 - 1) uncert0 0 = 0 ->
  process index st coord = Raise IndexError.
Proof using Type.
  intros Hf HL Hz. unfold zfind_point. rewrite Hf.
  unfold average_zeroes. destruct (length uncert0) as [|n] eqn:E; [lia|].
  destruct (az_loop_fails n 0 uncert0) as [d Hd].
  - now rewrite E.
  - rewrite E. exact Hz.
  - rewrite Hd. reflexivity.
Qed.

End ZfindMore.

(** ** Runs of the further facts on concrete inputs *)

Lemma average_zeroes_one : average_zeroes [1] = Returned [1].
Proof.
  unfold average_zeroes. cbn [length].
  rewrite az_step_nonzero by (cbn [nth]; lra). reflexivity.
Qed.

Lemma demo_point :
  exists st,
    zfind_point fit_always argsort_one (fun _ => ([1], [1])) (fun _ => []) 1 [1] 2 [0]
      0 new_finder (0, 0) = Ok st.
Proof.
  cbv beta iota zeta delta [zfind_point]. rewrite average_zeroes_one.
  eexists; reflexivity.
Qed.

Lemma demo_run :
  exists st,
    zfind_points fit_always argsort_one (fun _ => ([1], [1])) (fun _ => []) 1 [1] 2 [0]
      0 new_finder [(0, 0); (1, 1)] = Ok st.
Proof.
  cbv beta iota zeta delta [zfind_points zfind_point]. rewrite average_zeroes_one.
  eexists; reflexivity.
Qed.

Lemma grid_search_total_witness :
  exists st,
    grid_search fit_on_peak argsort_one 1 [1] 2 [1] [1] [] (mk_fit_arrays [] []) [0; 1]
    = Ok st /\
    length (chi2_array st) = length [0; 1].
Proof.
  destruct (grid_search_total fit_on_peak argsort_one 1 [1] 2 [1] [1] [] 0 [1]
              (1, 1 / 4) try_fit_on_peak) as [st [E [HL _]]].
  exists st. split; [exact E|exact HL].
Defined.

Lemma grid_search_aligned_witness :
  grid_search fit_on_peak argsort_one 1 [1] 2 [1] [1] [] (mk_fit_arrays [] []) [0]
  = Ok (mk_fit_arrays
          (map (recorded_chi2 fit_on_peak argsort_one 1 [1] 2 [1] [1] []) [0])
          (map (fit_params fit_on_peak 1 [1] 2 [1]) [0])).
Proof.
  apply (grid_search_aligned fit_on_peak argsort_one 1 [1] 2 [1] [1] [] [0]).
  intros ddz [<-|[]]. eexists. apply try_fit_on_peak.
Defined.

Lemma lowest_redshift_is_first_minimum_witness :
  exists (st : finder) (chi2s : list R) (i : nat),
    zfind_point fit_always argsort_one (fun _ => ([1], [1])) (fun _ => []) 1 [1] 2 [0]
      0 new_finder (0, 0) = Ok st /\
    all_chi2 st = all_chi2 new_finder ++ [chi2s] /\
    all_lowest_z st = all_lowest_z new_finder ++ [nth i [0] 0] /\
    (i < length [0])%nat.
Proof.
  destruct demo_point as [st H].
  destruct (lowest_redshift_is_first_minimum _ _ _ _ _ _ _ _ _ _ _ _ H)
    as [chi2s [i [H1 [H2 [_ [H3 _]]]]]].
  exists st, chi2s, i. split; [exact H|]. repeat split; assumption.
Defined.

Lemma zfind_points_aligned_witness :
  exists st : finder,
    zfind_points fit_always argsort_one (fun _ => ([1], [1])) (fun _ => []) 1 [1] 2 [0]
      0 new_finder [(0, 0); (1, 1)] = Ok st /\
    length (plot_colours st) = 2%nat /\ length (all_chi2 st) = 2%nat /\
    length (all_params st) = 2%nat /\ length (all_lowest_z st) = 2%nat.
Proof.
  destruct demo_run as [st H].
  destruct (zfind_points_aligned _ _ _ _ _ _ _ _ _ _ H) as [H1 [_ [H3 [H4 [H5 _]]]]].
  exists st. repeat split; assumption.
Defined.

Lemma zfind_points_colours_witness :
  exists st : finder,
    zfind_points fit_always argsort_one (fun _ => ([1], [1])) (fun _ => []) 1 [1] 2 [0]
      0 new_finder [(0, 0); (1, 1)] = Ok st /\
    nth 0 (plot_colours st) red = black /\ nth 1 (plot_colours st) black <> black.
Proof.
  destruct demo_run as [st H].
  destruct (zfind_points_colours _ _ _ _ _ _ _ _ _ _ H ltac:(discriminate))
    as [H0 H1].
  exists st. split; [exact H|]. split; [exact H0|]. apply H1. simpl; lia.
Defined.

Lemma zfind_point_value_error_witness :
  zfind_point fit_always argsort_one (fun _ => ([1], [1])) (fun _ => []) 1 [1] 2 []
    0 new_finder (0, 0) = Raise ValueError.
Proof.
  apply (zfind_point_value_error fit_always argsort_one (fun _ => ([1], [1]))
           (fun _ => []) 1 [1] 2 [] 0 new_finder (0, 0) [1] [1] [1]).
  - reflexivity.
  - apply average_zeroes_one.
  - now left.
Defined.

Lemma zfind_point_index_error_witness :
  zfind_point fit_always argsort_one (fun _ => ([1], [0])) (fun _ => []) 1 [1] 2 [0]
    0 new_finder (0, 0) = Raise IndexError.
Proof.
  apply (zfind_point_index_error fit_always argsort_one (fun _ => ([1], [0]))
           (fun _ => []) 1 [1] 2 [0] 0 new_finder (0, 0) [1] [0]).
  - reflexivity.
  - simpl; lia.
  - reflexivity.
Defined.

(** ** [spaced_circle_points]: returning and redrawing *)

Lemma accepted_passes (rnd : nat -> R) (k : nat) (cr : R) (c : point) (D : R)
    (points : list point) (m : R) :
  py_min (map (euclidean (candidate_point rnd k cr c)) points) = Ok m ->
  (accepted m D points = true <-> passes rnd cr c D points k).
Proof.
  intros Hm. apply py_min_ok in Hm. destruct Hm as [Hin Hle].
  unfold accepted, passes. split.
  - intros H. apply orb_true_iff in H. destruct H as [H|H].
    + right. intros p Hp. destruct (Rge_dec m D) as [Hge|]; [|discriminate].
      specialize (Hle _ (in_map (euclidean (candidate_point rnd k cr c)) _ _ Hp)).
      lra.
    + left. now apply Nat.eqb_eq.
  - intros [H|H].
    + apply orb_true_iff. right. now apply Nat.eqb_eq.
    + apply in_map_iff in Hin. destruct Hin as [p [<- Hp]].
      specialize (H p Hp). apply orb_true_iff. left.
      destruct (Rge_dec (euclidean (candidate_point rnd k cr c) p) D);
        [reflexivity|lra].
Qed.

Lemma place_point_step (fuel : nat) (rnd : nat -> R) (k : nat) (cr : R) (c : point)
    (D : R) (points : list point) :
  points <> [] ->
  (passes rnd cr c D points k ->
   place_point (S fuel) rnd k cr c D points
   = Done (points ++ [candidate_point rnd k cr c], S (S k))) /\
  (~ passes rnd cr c D points k ->
   place_point (S fuel) rnd k cr c D points
   = place_point fuel rnd (S (S k)) cr c D points).
Proof.
  intros Hne. cbn [place_point].
  destruct (min_distance_spec (candidate_point rnd k cr c) points Hne) as [m [E _]].
  rewrite E. pose proof (accepted_passes rnd k cr c D points m E) as Hiff.
  destruct (accepted m D points); split; intros H; try reflexivity.
  - exfalso. apply H. now apply Hiff.
  - apply Hiff in H. discriminate.
Qed.

(** The loop for one point ends at the first draw that passes. *)
Lemma place_point_supplied (w fuel : nat) (rnd : nat -> R) (k : nat) (cr : R)
    (c : point) (D : R) (points : list point) :
  points <> [] -> (w < fuel)%nat ->
  (forall j, (j < w)%nat -> ~ passes rnd cr c D points (k + 2 * j)) ->
  passes rnd cr c D points (k + 2 * w) ->
  place_point fuel rnd k cr c D points
  = Done (points ++ [candidate_point rnd (k + 2 * w) cr c], (k + 2 * w + 2)%nat).
Proof.
  intros Hne. revert fuel k; induction w as [|w IH]; intros fuel k Hf Hrej Hacc.
  - destruct fuel as [|fuel]; [lia|].
    replace (k + 2 * 0)%nat with k in * by lia.
    replace (k + 2)%nat with (S (S k)) by lia.
    now apply place_point_step.
  - destruct fuel as [|fuel]; [lia|].
    destruct (place_point_step fuel rnd k cr c D points Hne) as [_ Hskip].
    rewrite Hskip.
    + replace (k + 2 * S w)%nat with (S (S k) + 2 * w)%nat in * by lia.
      apply IH; [lia| |exact Hacc].
      intros j Hj. replace (S (S k) + 2 * j)%nat with (k + 2 * S j)%nat by lia.
      apply Hrej. lia.
    + replace k with (k + 2 * 0)%nat at 1 by lia. apply Hrej. lia.
Qed.

Lemma place_point_returned (fuel : nat) (rnd : nat -> R) (k : nat) (cr : R)
    (c : point) (D : R) (points points' : list point) (k' : nat) :
  points <> [] ->
  place_point fuel rnd k cr c D points = Done (points', k') ->
  exists w, (w < fuel)%nat /\
    (forall j, (j < w)%nat -> ~ passes rnd cr c D points (k + 2 * j)) /\
    passes rnd cr c D points (k + 2 * w) /\
    points' = points ++ [candidate_point rnd (k + 2 * w) cr c] /\
    k' = (k + 2 * w + 2)%nat.
Proof.
  intros Hne. revert k; induction fuel as [|fuel IH]; intros k H; [discriminate|].
  destruct (place_point_step fuel rnd k cr c D points Hne) as [Hacc Hskip].
  destruct (min_distance_spec (candidate_point rnd k cr c) points Hne) as [m [E _]].
  pose proof (accepted_passes rnd k cr c D points m E) as Hiff.
  destruct (accepted m D points) eqn:Ea.
  - assert (Hp : passes rnd cr c D points k) by now apply Hiff.
    rewrite (Hacc Hp) in H. injection H as <- <-.
    exists 0%nat. replace (k + 2 * 0)%nat with k by lia.
    split; [lia|]. split; [intros j Hj; lia|]. split; [exact Hp|].
    split; [reflexivity|lia].
  - assert (Hp : ~ passes rnd cr c D points k).
    { intros Hp. apply Hiff in Hp. discriminate. }
    rewrite (Hskip Hp) in H. apply IH in H.
    destruct H as [w [Hw [Hrej [Hpass [-> ->]]]]].
    exists (S w). replace (k + 2 * S w)%nat with (S (S k) + 2 * w)%nat by lia.
    split; [lia|]. split; [|split; [exact Hpass|split; [reflexivity|lia]]].
    intros j Hj. destruct j as [|j].
    + now replace (k + 2 * 0)%nat with k by lia.
    + replace (k + 2 * S j)%nat with (S (S k) + 2 * j)%nat by lia.
      apply Hrej. lia.
Qed.

Lemma place_point_never_passes (fuel : nat) (rnd : nat -> R) (k : nat) (cr : R)
    (c : point) (D : R) (points : list point) :
  points <> [] ->
  (forall j, ~ passes rnd cr c D points (k + 2 * j)) ->
  place_point fuel rnd k cr c D points = OutOfFuel.
Proof.
  intros Hne. revert k; induction fuel as [|fuel IH]; intros k H; [reflexivity|].
  destruct (place_point_step fuel rnd k cr c D points Hne) as [_ Hskip].
  rewrite Hskip.
  - apply IH. intros j.
    replace (S (S k) + 2 * j)%nat with (k + 2 * S j)%nat by lia. apply H.
  - replace k with (k + 2 * 0)%nat at 1 by lia. apply H.
Qed.

Lemma supply_returns (rnd : nat -> R) (cr : R) (c : point) (D : R)
    (iters k : nat) (points out : list point) (need fuel : nat) :
  draws_supply rnd cr c D iters k points out need ->
  points <> [] -> (need <= fuel)%nat ->
  place_points iters fuel rnd k cr c D points = Done out.
Proof.
  intros H. revert fuel.
  induction H as [k points|iters k points out w need Hrej Hacc Hrest IH];
    intros fuel Hne Hfuel.
  - reflexivity.
  - cbn [place_points].
    rewrite (place_point_supplied w fuel rnd k cr c D points Hne) by (auto; lia).
    apply IH; [|lia]. destruct points; discriminate.
Qed.

Lemma returns_supply (rnd : nat -> R) (cr : R) (c : point) (D : R)
    (iters fuel k : nat) (points out : list point) :
  points <> [] ->
  place_points iters fuel rnd k cr c D points = Done out ->
  exists need, (need <= fuel)%nat /\ draws_supply rnd cr c D iters k points out need.
Proof.
  revert k points; induction iters as [|iters IH]; intros k points Hne H.
  - injection H as <-. exists 0%nat. split; [lia|constructor].
  - cbn [place_points] in H.
    destruct (place_point fuel rnd k cr c D points) as [[points' k']| |] eqn:E;
      try discriminate.
    destruct (place_point_returned _ _ _ _ _ _ _ _ _ Hne E)
      as [w [Hw [Hrej [Hacc [-> ->]]]]].
    apply IH in H; [|destruct points; discriminate].
    destruct H as [need [Hneed Hrest]].
    exists (Nat.max (S w) need). split; [lia|].
    now apply supply_next.
Qed.

Lemma euclidean_lower (p q : point) (d : R) :
  0 <= d -> d * d <= (fst p - fst q) ^ 2 + (snd p - snd q) ^ 2 ->
  d <= euclidean p q.
Proof.
  intros Hd H. unfold euclidean.
  rewrite <- (sqrt_square d Hd). apply sqrt_le_1_alt. exact H.
Qed.

Lemma candidate_east (rnd : nat -> R) (k : nat) (cr : R) (c : point) :
  rnd k = 0 ->
  candidate_point rnd k cr c = (cr * rnd (S k) + fst c, snd c).
Proof.
  intros H. unfold candidate_point. rewrite H.
  replace (2 * PI * 0) with 0 by ring. rewrite cos_0, sin_0.
  f_equal; ring.
Qed.

Lemma candidate_west (rnd : nat -> R) (k : nat) (cr : R) (c : point) :
  rnd k = 1 / 2 ->
  candidate_point rnd k cr c = (- (cr * rnd (S k)) + fst c, snd c).
Proof.
  intros H. unfold candidate_point. rewrite H.
  replace (2 * PI * (1 / 2)) with PI by lra. rewrite cos_PI, sin_PI.
  f_equal; ring.
Qed.

(** The stream [stream_east_west] supplies three points for radius 4 and
    separation 1: the second draw is rejected, as it falls on the point
    placed just before. *)
Lemma east_west_supply :
  draws_supply stream_east_west 4 (0, 0) 1 2 0 [(0, 0)]
    [(0, 0); candidate_point stream_east_west 0 4 (0, 0);
     candidate_point stream_east_west 4 4 (0, 0)]
    2.
Proof.
  assert (E0 : candidate_point stream_east_west 0 4 (0, 0) = (2, 0)).
  { rewrite candidate_east by reflexivity. cbn [stream_east_west fst snd].
    f_equal; lra. }
  assert (E2 : candidate_point stream_east_west 2 4 (0, 0) = (2, 0)).
  { rewrite candidate_east by reflexivity. cbn [stream_east_west fst snd].
    f_equal; lra. }
  assert (E4 : candidate_point stream_east_west 4 4 (0, 0) = (-2, 0)).
  { rewrite candidate_west by reflexivity. cbn [stream_east_west fst snd].
    f_equal; lra. }
  refine (supply_next _ _ _ _ 1 0 [(0, 0)] _ 0 (Nat.max 2 0) _ _ _).
  - intros j Hj; lia.
  - now left.
  - refine (supply_next _ _ _ _ 0 _ _ _ 1 0 _ _ _).
    + intros j Hj. replace j with 0%nat by lia.
      cbn [Nat.add Nat.mul app]. intros [Hlen|Hall]; [discriminate|].
      specialize (Hall (candidate_point stream_east_west 0 4 (0, 0))
                    ltac:(right; left; reflexivity)).
      rewrite E0, E2, euclidean_self in Hall. lra.
    + cbn [Nat.add Nat.mul app]. right. rewrite E0, E4.
      intros p [<-|[<-|[]]]; apply euclidean_lower; cbn [fst snd]; lra.
    + apply supply_none.
Qed.

(** C5, as the claim words it, fails twice on inputs that leave plenty of
    room (radius 10, separation 1). The pair made of the centre and the
    second point is not tested: the sampler returns a second point 1/2 away
    from the centre. And it need not return: on a stream that repeats the same
    draw, the third point is rejected for ever. *)
Lemma sampler_second_point_unchecked :
  spaced_circle_points 1 stream_near_centre 2 10 (0, 0) 1
    = Done [(0, 0); (- (1 / 2), 0)] /\
  (0, 0) <> (- (1 / 2), 0) /\
  euclidean (0, 0) (- (1 / 2), 0) < 1 /\
  forall fuel : nat,
    spaced_circle_points fuel stream_constant 3 10 (0, 0) 1 = OutOfFuel.
Proof.
  split; [|split; [|split]].
  - unfold spaced_circle_points. change (Z.to_nat (2 - 1)) with 1%nat.
    cbn [place_points]. rewrite place_point_second.
    rewrite candidate_west by reflexivity. cbn [stream_near_centre fst snd].
    do 3 f_equal. f_equal; lra.
  - intros H. injection H as H. lra.
  - unfold euclidean; cbn [fst snd].
    rewrite <- sqrt_1 at 2. apply sqrt_lt_1_alt. lra.
  - intros fuel. unfold spaced_circle_points.
    change (Z.to_nat (3 - 1)) with 2%nat.
    destruct fuel as [|fuel]; [reflexivity|].
    cbn [place_points]. rewrite place_point_second.
    rewrite place_point_never_passes; [reflexivity|discriminate|].
    intros j [Hlen|Hall]; [discriminate|].
    specialize (Hall (candidate_point stream_constant 0 10 (0, 0))
                  ltac:(right; left; reflexivity)).
    change (candidate_point stream_constant (2 + 2 * j) 10 (0, 0))
      with (candidate_point stream_constant 0 10 (0, 0)) in Hall.
    rewrite euclidean_self in Hall. lra.
Qed.

(** C5 (amended): for a point count of at least 1 the sampler never raises.
    When the stream of random numbers supplies, for each point in turn, a draw
    that passes the acceptance test, it returns, given the fuel for the
    rejected draws, the centre followed by the first passing draw of each
    point; and it returns in no other way. What it returns has exactly the
    asked number of points, the centre first, and every point from the third
    one on is at least the minimum separation away from each point placed
    before it; the second point is taken without a distance test. It always
    returns when at most two points are asked for or the separation is not
    positive. *)
Theorem spaced_circle_points_spec (fuel : nat) (rnd : nat -> R) (num_points : Z)
    (cr : R) (c : point) (D : R) :
  (1 <= num_points)%Z ->
  (forall out need,
      draws_supply rnd cr c D (Z.to_nat (num_points - 1)) 0 [c] out need ->
      (need <= fuel)%nat ->
      spaced_circle_points fuel rnd num_points cr c D = Done out) /\
  (forall pts, spaced_circle_points fuel rnd num_points cr c D = Done pts ->
     length pts = Z.to_nat num_points /\
     nth 0 pts (0, 0) = c /\
     (forall i j : nat, (i < j)%nat -> (j < length pts)%nat -> (2 <= j)%nat ->
        D <= euclidean (nth j pts (0, 0)) (nth i pts (0, 0))) /\
     exists need, (need <= fuel)%nat /\
       draws_supply rnd cr c D (Z.to_nat (num_points - 1)) 0 [c] pts need) /\
  (forall e, spaced_circle_points fuel rnd num_points cr c D <> Crashed e) /\
  ((num_points <= 2)%Z \/ D <= 0 -> (1 <= fuel)%nat ->
   exists pts, spaced_circle_points fuel rnd num_points cr c D = Done pts).
Proof.
  intros HN. unfold spaced_circle_points. split; [|split; [|split]].
  - intros out need Hs Hneed. eapply supply_returns; eauto. discriminate.
  - intros pts H. pose proof H as H'. apply place_points_done in H.
    + destruct H as [HL [H0 HS]]. cbn [length nth] in HL, H0.
      split; [lia|]. split; [exact H0|]. split; [exact HS|].
      apply returns_supply in H'; [exact H'|discriminate].
    + discriminate.
    + apply spread_short; simpl; lia.
  - intros e. apply place_points_no_crash. discriminate.
  - intros Hcase Hfuel. destruct fuel as [|fuel]; [lia|].
    destruct Hcase as [H2|HD].
    + destruct (Z.to_nat (num_points - 1)) as [|[|n]] eqn:E; try lia.
      * now eexists.
      * cbn [place_points]. rewrite place_point_second. now eexists.
    + apply place_points_no_spread; [discriminate|exact HD].
Qed.

Lemma spaced_circle_points_spec_witness :
  spaced_circle_points 2 stream_east_west 3 4 (0, 0) 1
  = Done [(0, 0); candidate_point stream_east_west 0 4 (0, 0);
          candidate_point stream_east_west 4 4 (0, 0)].
Proof.
  refine (proj1 (spaced_circle_points_spec 2 stream_east_west 3 4 (0, 0) 1 _)
            _ 2%nat _ _).
  - lia.
  - exact east_west_supply.
  - lia.
Defined.

Lemma candidate_in_reach (rnd : nat -> R) (k : nat) (cr : R) (c : point) :
  (forall i, 0 <= rnd i < 1) -> 0 <= cr ->
  in_reach cr c (candidate_point rnd k cr c).
Proof.
  intros Hrnd Hcr. exists (rnd (S k)). split; [apply Hrnd|].
  rewrite candidate_to_centre. pose proof (Hrnd (S k)).
  apply Rabs_right. nra.
Qed.

Lemma place_points_reach (iters fuel : nat) (rnd : nat -> R) (k : nat) (cr : R)
    (c : point) (D : R) (points out : list point) :
  (forall i, 0 <= rnd i < 1) -> 0 <= cr -> points <> [] ->
  Forall (in_reach cr c) (tl points) ->
  place_points iters fuel rnd k cr c D points = Done out ->
  Forall (in_reach cr c) (tl out).
Proof.
  intros Hrnd Hcr. revert k points; induction iters as [|iters IH];
    intros k points Hne Hin H.
  - now injection H as <-.
  - cbn [place_points] in H.
    destruct (place_point fuel rnd k cr c D points) as [[points' k']| |] eqn:E;
      try discriminate.
    destruct (place_point_candidate _ _ _ _ _ _ _ _ _ E) as [j ->].
    apply IH in H; [exact H|destruct points; discriminate|].
    destruct points as [|p0 rest]; [congruence|]. cbn [tl app] in *.
    apply Forall_app. split; [exact Hin|].
    constructor; [|constructor]. now apply candidate_in_reach.
Qed.

(** What the sampler returns is admissible. *)
Lemma returned_admissible (fuel : nat) (rnd : nat -> R) (num_points : Z) (cr : R)
    (c : point) (D : R) (pts : list point) :
  (forall i, 0 <= rnd i < 1) -> 0 <= cr ->
  spaced_circle_points fuel rnd num_points cr c D = Done pts ->
  admissible num_points cr c D pts.
Proof.
  intros Hrnd Hcr H. unfold spaced_circle_points in H.
  assert (Hne : [c] <> []) by discriminate.
  pose proof (place_points_reach _ _ _ _ _ _ _ _ _ Hrnd Hcr Hne
                (Forall_nil _) H) as Hreach.
  apply place_points_done in H;
    [|discriminate|apply spread_short; simpl; lia].
  destruct H as [HL [H0 HS]]. cbn [length nth] in HL, H0.
  unfold admissible. split; [lia|]. split; [exact H0|]. split; [|exact HS].
  intros j Hj. destruct pts as [|p0 rest]; [cbn in Hj; lia|].
  destruct j as [|j]; [lia|]. cbn [nth tl length] in *.
  rewrite Forall_forall in Hreach. apply Hreach. apply nth_In. lia.
Qed.

(** With three points or more, no list is admissible when the separation is
    positive and not below the radius: the third point would have to be at
    least [D] away from the centre, and the draws reach less far. *)
Lemma no_room_beyond_radius (num_points : Z) (cr : R) (c : point) (D : R) :
  (3 <= num_points)%Z -> 0 <= cr -> cr <= D -> 0 < D ->
  ~ exists pts, admissible num_points cr c D pts.
Proof.
  intros HN Hcr HD HD0 [pts [HL [H0 [Hreach Hspread]]]].
  assert (H2 : (2 < length pts)%nat) by lia.
  specialize (Hspread 0%nat 2%nat ltac:(lia) H2 ltac:(lia)).
  rewrite H0 in Hspread.
  destruct (Hreach 2%nat ltac:(lia)) as [t [Ht Ed]].
  rewrite Ed in Hspread. nra.
Qed.

(** C6, as the claim words it, fails: with three points, radius 1 and
    separation 10 no amount of fuel brings the sampler to an end, be it a
    result or an exception. *)
Lemma sampler_redraws_forever :
  (forall fuel : nat,
      spaced_circle_points fuel (fun _ => 1 / 2) 3 1 (0, 0) 10 = OutOfFuel) /\
  (forall (fuel : nat) (pts : list point),
      spaced_circle_points fuel (fun _ => 1 / 2) 3 1 (0, 0) 10 <> Done pts) /\
  (forall (fuel : nat) (e : exn),
      spaced_circle_points fuel (fun _ => 1 / 2) 3 1 (0, 0) 10 <> Crashed e).
Proof.
  assert (H : forall fuel : nat,
             spaced_circle_points fuel (fun _ => 1 / 2) 3 1 (0, 0) 10 = OutOfFuel).
  { intros fuel. apply spaced_circle_points_starves; try lra; try lia.
    intros _; lra. }
  repeat split; intros; rewrite H; discriminate || reflexivity.
Qed.

(** C6 (amended): the sampler has no cap on redraws and raises nothing. When
    the separation is infeasible for the test the code applies, that is when
    no list of the asked number of points, the centre first and the others
    within reach of the draws, keeps every point from the third one on at
    least [D] away from the points before it, the sampler never comes to an
    end. This is the case whenever three points or more are asked for and the
    separation is positive and not below the radius. Asked for at most two
    points, it returns whatever the separation is. *)
Theorem spaced_circle_points_no_retry_cap (rnd : nat -> R) (num_points : Z)
    (cr : R) (c : point) (D : R) :
  (forall i, 0 <= rnd i < 1) -> 0 <= cr ->
  ((~ exists pts, admissible num_points cr c D pts) ->
   forall fuel : nat,
     spaced_circle_points fuel rnd num_points cr c D = OutOfFuel /\
     (forall pts, spaced_circle_points fuel rnd num_points cr c D <> Done pts) /\
     (forall e, spaced_circle_points fuel rnd num_points cr c D <> Crashed e)) /\
  ((3 <= num_points)%Z -> cr <= D -> 0 < D ->
   forall fuel : nat,
     spaced_circle_points fuel rnd num_points cr c D = OutOfFuel) /\
  ((num_points <= 2)%Z ->
   forall fuel : nat, (1 <= fuel)%nat ->
     exists pts, spaced_circle_points fuel rnd num_points cr c D = Done pts).
Proof.
  intros Hrnd Hcr.
  assert (Hgen : (~ exists pts, admissible num_points cr c D pts) ->
                 forall fuel : nat,
                   spaced_circle_points fuel rnd num_points cr c D = OutOfFuel).
  { intros Hno fuel.
    destruct (spaced_circle_points fuel rnd num_points cr c D) as [pts|e|] eqn:E.
    - exfalso. apply Hno. exists pts. eapply returned_admissible; eauto.
    - exfalso. unfold spaced_circle_points in E.
      now apply place_points_no_crash in E.
    - reflexivity. }
  split; [|split].
  - intros Hno fuel. rewrite (Hgen Hno fuel). repeat split; discriminate.
  - intros HN HD HD0 fuel. apply Hgen. now apply no_room_beyond_radius.
  - intros HN fuel Hfuel. unfold spaced_circle_points.
    destruct fuel as [|fuel]; [lia|].
    destruct (Z.to_nat (num_points - 1)) as [|[|n]] eqn:E; try lia.
    + now eexists.
    + cbn [place_points]. rewrite place_point_second. now eexists.
Qed.

Lemma spaced_circle_points_no_retry_cap_witness :
  spaced_circle_points 7 (fun _ => 0) 4 2 (1, 1) 2 = OutOfFuel.
Proof.
  refine (proj1 (proj2 (spaced_circle_points_no_retry_cap (fun _ => 0) 4 2 (1, 1) 2
                          _ _)) _ _ _ 7%nat).
  - intros _; lra.
  - lra.
  - lia.
  - lra.
  - lra.
Defined.
